(** * car_logger: the due-service check of [main.py]

    A shallow embedding of [CarLogger] (the SQLite-backed service journal)
    and of the catalog [PLANNED_WORK_WITH_PERIOD], with the properties of
    the due-service computation proved over it. *)

From Stdlib Require Import ZArith List String Ascii Bool Lia DecimalString.
From Stdlib Require Import Sorted Permutation.
From Stdlib Require Import Floats.SpecFloat.
Import ListNotations.
Local Open Scope string_scope.
Local Open Scope Z_scope.

(** ** Python values *)

(** Exceptions the modelled code can raise.  [OperationalError] and
    [DatabaseError] come from [sqlite3] (the first is a subclass of the
    second in Python, but only the first is caught by
    [display_service_status]); [OverflowError] is raised by the float
    conversions and by binding an integer that does not fit SQLite's
    64-bit INTEGER. *)
Inductive py_exception : Type :=
| OperationalError
| DatabaseError
| OverflowError
| ValueError.

Inductive outcome (A : Type) : Type :=
| Return (a : A)
| Raise (e : py_exception).
Arguments Return {A} a.
Arguments Raise {A} e.

(** *** Floats: IEEE 754 binary64, as CPython's [float] *)
Module PyFloat.

Definition prec : Z := 53.
Definition emax : Z := 1024.

(** [float(n)] for a Python int: round to nearest even, [OverflowError]
    when the integer is too large for a double. *)
Definition of_int (n : Z) : outcome spec_float :=
  match binary_normalize prec emax n 0 false with
  | S754_infinity _ => Raise OverflowError
  | x => Return x
  end.

(** The literal [0.1]: the double nearest to one tenth,
    3602879701896397 / 2^55. *)
Definition point_one : spec_float :=
  S754_finite false 3602879701896397 (-55).

Definition mul (x y : spec_float) : spec_float := SFmul prec emax x y.

(** [int(x)]: truncation toward zero. *)
Definition to_int (x : spec_float) : outcome Z :=
  match x with
  | S754_zero _ => Return 0
  | S754_infinity _ => Raise OverflowError
  | S754_nan => Raise ValueError
  | S754_finite s m e =>
      let a := match e with
               | Zneg p => Z.shiftr (Zpos m) (Zpos p)
               | _ => Z.shiftl (Zpos m) e
               end in
      Return (if s then - a else a)
  end.

(** [n * x] for an int [n] and a float [x]: the int is converted first. *)
Definition int_mul_float (n : Z) (x : spec_float) : outcome spec_float :=
  match of_int n with
  | Return fn => Return (mul fn x)
  | Raise e => Raise e
  end.

End PyFloat.

(** [int(period * 0.1)], the 10% admission of line 122. *)
Definition admission_of (period : Z) : outcome Z :=
  match PyFloat.int_mul_float period PyFloat.point_one with
  | Return x => PyFloat.to_int x
  | Raise e => Raise e
  end.

(** ** The data model *)

(** [datetime.date]: a valid calendar date (year 1..9999). *)
Record py_date : Type := { year : Z; month : Z; day : Z }.

Definition digit (n : Z) : ascii := ascii_of_nat (48 + Z.to_nat (n mod 10)).

(** [date.isoformat()]: YYYY-MM-DD. *)
Definition isoformat (d : py_date) : string :=
  String (digit (year d / 1000)) (String (digit (year d / 100))
    (String (digit (year d / 10)) (String (digit (year d))
      (String "-" (String (digit (month d / 10)) (String (digit (month d))
        (String "-" (String (digit (day d / 10)) (String (digit (day d))
          EmptyString))))))))).

Record LogRecord : Type := {
  mileage : Z;
  service_date : py_date;
  type_ : string;
  service_description : string
}.

Definition SERVICE_TYPE : list (Z * string) :=
  [ (0, "плановое ТО");
    (1, "внеплановый ремонт") ].

Definition PLANNED_WORK_WITH_PERIOD : list (Z * (string * Z)) :=
  [ (0, ("Замена масла в двигателе", 15000));
    (1, ("Замена масляного фильтра", 15000));
    (2, ("Замена тормозных дисков", 100000));
    (3, ("Замена топливного фильтра", 80000));
    (4, ("Замена воздушного фильтра для двигателя", 40000));
    (5, ("Замена воздушного фильтра для салона", 20000));
    (6, ("Замена свечей зажигания", 100000));
    (7, ("Замена тормозной жидкости", 40000));
    (8, ("Замена масла в раздаточной коробке", 100000));
    (9, ("Замена масла в механизме заднего дифференциала", 100000));
    (10, ("Замена охлаждающей жидкости двигателя", 80000));
    (11, ("Замена масла в АКПП", 100000)) ].

(** A Python [dict] keyed by strings: insertion-ordered, assignment to an
    existing key replaces the value in place. *)
Definition dict (V : Type) : Type := list (string * V).

Fixpoint dict_set {V : Type} (d : dict V) (k : string) (v : V) : dict V :=
  match d with
  | [] => [(k, v)]
  | (k', v') :: rest =>
      if String.eqb k' k then (k', v) :: rest
      else (k', v') :: dict_set rest k v
  end.

Fixpoint dict_get {V : Type} (d : dict V) (k : string) : option V :=
  match d with
  | [] => None
  | (k', v') :: rest => if String.eqb k' k then Some v' else dict_get rest k
  end.

Definition dict_keys {V : Type} (d : dict V) : list string := map fst d.

(** ** The record store: table [logs] of the SQLite file *)
Module Logs.

(** One row of [CREATE_TABLE_SQL]'s table. *)
Record row : Type := {
  id : Z;
  mileage : Z;
  date : string;
  type : string;
  description : string
}.

End Logs.

(** The database: the rows of [logs] in insertion order and the
    AUTOINCREMENT counter (the largest id handed out so far). *)
Record database : Type := {
  logs : list Logs.row;
  sqlite_sequence : Z
}.

(** What [_initialize_database] leaves on a fresh file. *)
Definition empty_database : database :=
  {| logs := []; sqlite_sequence := 0 |}.

(** The store is an external collaborator that can fail.  A [fault_plan]
    tells, for the n-th store operation of one call (operation 0 is
    [_get_connection]), whether it raises and what. *)
Definition fault_plan : Type := nat -> option py_exception.

Definition no_fault : fault_plan := fun _ => None.

(** Stateful, fallible computations over the database. *)
Definition M (A : Type) : Type := database -> outcome A * database.

Definition ret {A : Type} (a : A) : M A := fun db => (Return a, db).

Definition bind {A B : Type} (c : M A) (k : A -> M B) : M B :=
  fun db =>
    match c db with
    | (Return a, db') => k a db'
    | (Raise e, db') => (Raise e, db')
    end.

Definition lift {A : Type} (o : outcome A) : M A := fun db => (o, db).

Declare Scope py_scope.
Delimit Scope py_scope with py.
Notation "x <- c ;; k" := (bind c (fun x => k))
  (at level 61, c at next level, right associativity) : py_scope.
Local Open Scope py_scope.

(** The store operation number [k] under plan [f]: raises if the plan says
    so, otherwise runs [op]. *)
Definition store_op {A : Type} (f : fault_plan) (k : nat) (op : M A) : M A :=
  match f k with
  | Some e => lift (Raise e)
  | None => op
  end.

(** [sqlite3.connect(self._db_path)] *)
Definition _get_connection (f : fault_plan) : M unit :=
  store_op f 0%nat (ret tt).

(** *** GET_LAST_SERVICE_SQL *)

(** [WHERE description = ?] (BINARY collation: exact equality). *)
Definition where_description (d : string) (rows : list Logs.row)
  : list Logs.row :=
  filter (fun r => String.eqb (Logs.description r) d) rows.

(** [ORDER BY mileage DESC] *)
Fixpoint insert_by_mileage_desc (r : Logs.row) (sorted : list Logs.row)
  : list Logs.row :=
  match sorted with
  | [] => [r]
  | r' :: rest =>
      if Logs.mileage r' <? Logs.mileage r then r :: sorted
      else r' :: insert_by_mileage_desc r rest
  end.

Definition order_by_mileage_desc (rows : list Logs.row) : list Logs.row :=
  fold_right insert_by_mileage_desc [] rows.

(** [SELECT mileage ... LIMIT 1] followed by [cursor.fetchone()]: the
    one-column tuple of the first row, or [None]. *)
Definition select_mileage_limit_1 (rows : list Logs.row) : option Z :=
  match rows with
  | [] => None
  | r :: _ => Some (Logs.mileage r)
  end.

Definition GET_LAST_SERVICE_SQL (work_desc : string) (db : database)
  : option Z :=
  select_mileage_limit_1
    (order_by_mileage_desc (where_description work_desc (logs db))).

(** [cursor.execute(GET_LAST_SERVICE_SQL, (work_desc,)); cursor.fetchone()]
    as store operation [k]. *)
Definition execute_get_last_service (f : fault_plan) (k : nat)
  (work_desc : string) : M (option Z) :=
  store_op f k (fun db => (Return (GET_LAST_SERVICE_SQL work_desc db), db)).

(** *** CREATE_RECORD_SQL *)

(** Binding a Python int to a statement: SQLite integers are signed 64-bit. *)
Definition bind_int (n : Z) : outcome Z :=
  if (- 2 ^ 63 <=? n) && (n <? 2 ^ 63) then Return n
  else Raise OverflowError.

(** [INSERT INTO logs (mileage, date, type, description) VALUES (?,?,?,?)];
    the result is [cursor.lastrowid]. *)
Definition CREATE_RECORD_SQL (m : Z) (d t s : string) (db : database)
  : Z * database :=
  let new_id := sqlite_sequence db + 1 in
  (new_id,
   {| logs := logs db ++ [ {| Logs.id := new_id; Logs.mileage := m;
                             Logs.date := d; Logs.type := t;
                             Logs.description := s |} ];
      sqlite_sequence := new_id |}).

(** [cursor.execute(CREATE_RECORD_SQL, (...))] as store operation [k]; a
    fault of the statement is taken before its parameters are bound. *)
Definition execute_create_record (f : fault_plan) (k : nat)
  (m : Z) (d t s : string) : M Z :=
  store_op f k
    (m' <- lift (bind_int m) ;;
     fun db => let '(rowid, db') := CREATE_RECORD_SQL m' d t s db in
               (Return rowid, db')).

(** [conn.commit()] *)
Definition commit (f : fault_plan) (k : nat) : M unit :=
  store_op f k (ret tt).

(** [with self._get_connection() as conn: body]: the connection's context
    manager rolls the transaction back when the body raises (on a normal
    exit it commits, which is a no-op once the body has committed or has
    only read). *)
Definition with_connection {A : Type} (f : fault_plan) (body : M A) : M A :=
  fun db =>
    match _get_connection f db with
    | (Raise e, _) => (Raise e, db)
    | (Return _, db0) =>
        match body db0 with
        | (Raise e, _) => (Raise e, db0)
        | r => r
        end
    end.

(** ** CarLogger *)
Module CarLogger.

(** The body of the loop of [check_necessary_service] for one catalog
    item, as store operation [k]. *)
Definition check_item (f : fault_plan) (current_mileage : Z) (k : nat)
  (item : Z * (string * Z)) (service_required : dict (Z * Z))
  : M (dict (Z * Z)) :=
  let '(work_id, (work_desc, period)) := item in
  result <- execute_get_last_service f k work_desc ;;
  let last_mileage := match result with Some r => r | None => 0 end in
  let next_service := last_mileage + period in
  admission <- lift (admission_of period) ;;
  if current_mileage >=? next_service - admission
  then ret (dict_set service_required work_desc (last_mileage, next_service))
  else ret service_required.

(** [for work_id, (work_desc, period) in items: ...], the store
    operations numbered from [k]. *)
Fixpoint check_items (f : fault_plan) (current_mileage : Z) (k : nat)
  (items : list (Z * (string * Z))) (service_required : dict (Z * Z))
  : M (dict (Z * Z)) :=
  match items with
  | [] => ret service_required
  | item :: rest =>
      service_required' <-
        check_item f current_mileage k item service_required ;;
      check_items f current_mileage (S k) rest service_required'
  end.

Definition check_necessary_service (f : fault_plan) (current_mileage : Z)
  : M (dict (Z * Z)) :=
  with_connection f
    (check_items f current_mileage 1%nat PLANNED_WORK_WITH_PERIOD []).

Definition create_record (f : fault_plan) (record : LogRecord) : M Z :=
  with_connection f
    (lastrowid <- execute_create_record f 1%nat
                    (mileage record)
                    (isoformat (service_date record))
                    (type_ record)
                    (service_description record) ;;
     _ <- commit f 2%nat ;;
     ret lastrowid).

(** [f"{n:,}".replace(",", " ")] *)
Fixpoint group3 (digits_rev : list ascii) : list ascii :=
  match digits_rev with
  | a :: b :: c :: rest =>
      match rest with
      | [] => [a; b; c]
      | _ :: _ => a :: b :: c :: " "%char :: group3 rest
      end
  | short => short
  end.

Definition format_thousands (n : Z) : string :=
  let digits :=
    list_ascii_of_string
      (DecimalString.NilZero.string_of_uint (N.to_uint (Z.abs_N n))) in
  let grouped := string_of_list_ascii (rev (group3 (rev digits))) in
  if n <? 0 then String "-" grouped else grouped.

(** One [table.add_row] of the status table. *)
Record table_row : Type := {
  cell_work : string;
  cell_last : string;
  cell_next : string;
  cell_current : string;
  cell_status : string
}.

(** What [display_service_status] prints. *)
Inductive console_output : Type :=
| ErrorLine (e : py_exception)
    (* "[error]Ошибка при доступе к базе данныnх: {e}[/error]" *)
| AllClearPanel
    (* the panel "Все системы в норме, сервис не требуется!" *)
| ServiceTable (rows : list table_row).

Definition status_required : string := "[warning]ТРЕБУЕТСЯ![/warning]".
Definition status_soon : string := "[info]Скоро потребуется[/info]".

Definition status_row (current_mileage : Z) (entry : string * (Z * Z))
  : table_row :=
  let '(work_desc, (last_mileage, next_service)) := entry in
  let status := if current_mileage >=? next_service
                then status_required else status_soon in
  {| cell_work := work_desc;
     cell_last := format_thousands last_mileage;
     cell_next := format_thousands next_service;
     cell_current := format_thousands current_mileage;
     cell_status := status |}.

Definition display_service_status (f : fault_plan) (current_mileage : Z)
  : M console_output :=
  fun db =>
    match check_necessary_service f current_mileage db with
    | (Raise OperationalError, db') =>
        (Return (ErrorLine OperationalError), db')
    | (Raise e, db') => (Raise e, db')
    | (Return service_required, db') =>
        match service_required with
        | [] => (Return AllClearPanel, db')
        | _ :: _ =>
            (Return (ServiceTable
                       (map (status_row current_mileage) service_required)),
             db')
        end
    end.

End CarLogger.

(** ** Reference definitions used by the statements *)

(** The greatest element of a list of mileages, if any. *)
Definition max_opt (l : list Z) : option Z :=
  fold_right (fun x acc => Some (match acc with
                                 | None => x
                                 | Some y => Z.max x y
                                 end)) None l.

(** [latest_mileage rows d L]: [L] is the mileage of the highest-mileage
    row of [rows] whose description is exactly [d], or 0 if there is none. *)
Definition latest_mileage (rows : list Logs.row) (d : string) (L : Z) : Prop :=
  (exists r, In r rows /\ Logs.description r = d /\ Logs.mileage r = L /\
             forall r', In r' rows -> Logs.description r' = d ->
                        Logs.mileage r' <= L)
  \/ ((forall r, In r rows -> Logs.description r <> d) /\ L = 0).

(** [last_mileage = result[0] if result else 0] *)
Definition last_mileage_of (db : database) (work_desc : string) : Z :=
  match GET_LAST_SERVICE_SQL work_desc db with
  | Some r => r
  | None => 0
  end.

(** The value of [int(period * 0.1)] where it does not raise. *)
Definition admission_value (period : Z) : Z :=
  match admission_of period with
  | Return a => a
  | Raise _ => 0
  end.

(** The inclusion test of line 124 for one task. *)
Definition due (db : database) (current_mileage : Z)
  (work_desc : string) (period : Z) : bool :=
  current_mileage >=?
    last_mileage_of db work_desc + period - admission_value period.

(** The pair stored at line 125. *)
Definition entry_of (db : database) (work_desc : string) (period : Z)
  : Z * Z :=
  (last_mileage_of db work_desc, last_mileage_of db work_desc + period).

(** The loop of [check_necessary_service] when nothing raises. *)
Fixpoint scan (db : database) (current_mileage : Z)
  (items : list (Z * (string * Z))) (service_required : dict (Z * Z))
  : dict (Z * Z) :=
  match items with
  | [] => service_required
  | (_, (work_desc, period)) :: rest =>
      let last_mileage := last_mileage_of db work_desc in
      let next_service := last_mileage + period in
      scan db current_mileage rest
        (if current_mileage >=? next_service - admission_value period
         then dict_set service_required work_desc (last_mileage, next_service)
         else service_required)
  end.

Definition descriptions (items : list (Z * (string * Z))) : list string :=
  map (fun item => fst (snd item)) items.

Definition in_catalog (d : string) : bool :=
  existsb (String.eqb d) (descriptions PLANNED_WORK_WITH_PERIOD).

(** What the evaluation can see of the store: mileage and description of
    the rows whose description is a catalog description. *)
Definition relevant (db : database) : list (Z * string) :=
  map (fun r => (Logs.mileage r, Logs.description r))
      (filter (fun r => in_catalog (Logs.description r)) (logs db)).

(** ** Sample data *)

Definition brake_discs_row : Logs.row :=
  {| Logs.id := 1; Logs.mileage := 50000; Logs.date := "2024-03-09";
     Logs.type := "плановое ТО";
     Logs.description := "Замена тормозных дисков" |}.

Definition sample_database : database :=
  {| logs := [brake_discs_row]; sqlite_sequence := 1 |}.

(** An unscheduled repair whose free text is the catalog's string. *)
Definition gearbox_repair_row : Logs.row :=
  {| Logs.id := 1; Logs.mileage := 50000; Logs.date := "2024-03-09";
     Logs.type := "внеплановый ремонт";
     Logs.description := "Замена масла в АКПП" |}.

Definition repair_database : database :=
  {| logs := [gearbox_repair_row]; sqlite_sequence := 1 |}.

(** A scheduled brake-disc replacement entered late, at a lower mileage
    than the one already in [sample_database]. *)
Definition late_record : LogRecord :=
  {| mileage := 30000;
     service_date := {| year := 2024; month := 5; day := 17 |};
     type_ := "плановое ТО";
     service_description := "Замена тормозных дисков" |}.

(** Negative mileage and an empty description. *)
Definition invalid_record : LogRecord :=
  {| mileage := -5;
     service_date := {| year := 2024; month := 5; day := 17 |};
     type_ := "внеплановый ремонт";
     service_description := "" |}.

(** ** Statements that the code does not satisfy as written *)

(** The store with the rows of the unscheduled-repair category removed. *)
Definition without_repairs (db : database) : database :=
  {| logs := filter (fun r => negb (String.eqb (Logs.type r)
                                      "внеплановый ремонт")) (logs db);
     sqlite_sequence := sqlite_sequence db |}.

(** The tasks included in an outcome. *)
Definition included (o : outcome (dict (Z * Z))) : option (list string) :=
  match o with
  | Return d => Some (dict_keys d)
  | Raise _ => None
  end.

(** "Appending [r] and then looking its description up returns [r]'s
    mileage." *)
Definition append_then_find_returns_appended (r : LogRecord) (db : database)
  : Prop :=
  forall rowid db',
    CarLogger.create_record no_fault r db = (Return rowid, db') ->
    fst (execute_get_last_service no_fault 1 (service_description r) db')
    = Return (Some (mileage r)).

(** "Records of the unscheduled-repair category are never selected by the
    lookup and never influence which tasks are included." *)
Definition repairs_never_influence (db : database) (m : Z) : Prop :=
  (forall work_desc,
      In work_desc (descriptions PLANNED_WORK_WITH_PERIOD) ->
      GET_LAST_SERVICE_SQL work_desc db =
      GET_LAST_SERVICE_SQL work_desc (without_repairs db)) /\
  included (fst (CarLogger.check_necessary_service no_fault m db)) =
  included (fst (CarLogger.check_necessary_service no_fault m
                   (without_repairs db))).

(** "Appending a record with negative mileage or an empty description
    fails without a record being stored." *)
Definition invalid_input_rejected (r : LogRecord) (db : database) : Prop :=
  mileage r < 0 \/ service_description r = "" ->
  forall f, exists e, CarLogger.create_record f r db = (Raise e, db).

(** A store whose fifth operation (the fifth query of the scan, the
    connection being operation 0) fails with [e]. *)
Definition fault_at_fifth_query (e : py_exception) : fault_plan :=
  fun n => if Nat.eqb n 5 then Some e else None.

(** "When the connection or a query of the evaluation fails, the caller
    reports the failure." *)
Definition failure_is_reported (f : fault_plan) (m : Z) (db : database)
  : Prop :=
  (exists k e, (k <= List.length PLANNED_WORK_WITH_PERIOD)%nat /\
               f k = Some e) ->
  exists e, fst (CarLogger.display_service_status f m db)
            = Return (CarLogger.ErrorLine e).

(** ** The rest of the journal: history and the menu's record entry *)

(** [str(n)] for a Python int. *)
Definition py_str (n : Z) : string :=
  let digits := DecimalString.NilZero.string_of_uint (N.to_uint (Z.abs_N n)) in
  if n <? 0 then String "-" digits else digits.

(** The text of a cell with the separators taken out again. *)
Definition without_spaces (s : string) : string :=
  string_of_list_ascii
    (filter (fun c => negb (Ascii.eqb c " "%char)) (list_ascii_of_string s)).

(** [needle in hay] for Python strings. *)
Fixpoint contains (needle hay : string) : bool :=
  if String.prefix needle hay then true
  else match hay with
       | EmptyString => false
       | String _ rest => contains needle rest
       end.

(** [GET_ALL_RECORDS_SQL] followed by [cursor.fetchall()]. *)
Definition GET_ALL_RECORDS_SQL (db : database) : list Logs.row := logs db.

(** One [table.add_row] of the history table. *)
Record history_row : Type := {
  cell_id : string;
  cell_mileage : string;
  cell_date : string;
  cell_type : string;
  cell_description : string
}.

(** What [show_service_history] prints. *)
Inductive history_output : Type :=
| HistoryEmpty
    (* "[warning]История обслуживания пуста[/warning]" *)
| HistoryTable (rows : list history_row).

Section History.

(** [datetime.date.fromisoformat] ([None] when it raises [ValueError]) and
    [date.strftime("%d.%m.%Y")], taken as given. *)
Variable fromisoformat : string -> option py_date.
Variable strftime_dmY : py_date -> string.

Definition history_line (row : Logs.row) : history_row :=
  let formatted_date :=
    match fromisoformat (Logs.date row) with
    | None => Logs.date row
    | Some service_date => strftime_dmY service_date
    end in
  let service_style :=
    if contains "плановое" (Logs.type row) then "success" else "warning" in
  {| cell_id := py_str (Logs.id row);
     cell_mileage := CarLogger.format_thousands (Logs.mileage row);
     cell_date := formatted_date;
     cell_type := "[" ++ service_style ++ "]" ++ Logs.type row ++ "[/]";
     cell_description := Logs.description row |}.

Definition show_service_history (f : fault_plan) : M history_output :=
  with_connection f
    (rows <- store_op f 1%nat
               (fun db => (Return (GET_ALL_RECORDS_SQL db), db)) ;;
     match rows with
     | [] => ret HistoryEmpty
     | _ :: _ => ret (HistoryTable (map history_line rows))
     end).

End History.

(** [generate_null_record()], [today] being [datetime.date.today()]. *)
Definition generate_null_record (today : py_date) : LogRecord :=
  {| mileage := 0; service_date := today; type_ := "";
     service_description := "" |}.

(** [table[key]] for the two tables keyed by integers; [None] is
    [KeyError]. *)
Fixpoint lookup {V : Type} (table : list (Z * V)) (key : Z) : option V :=
  match table with
  | [] => None
  | (k, v) :: rest => if k =? key then Some v else lookup rest key
  end.

(** The answers typed at the prompts of the menu's "add a record". *)
Record answers : Type := {
  answer_mileage : Z;
  answer_service_type : Z;
  answer_work_type : Z;
  answer_description : string
}.

(** The record that branch 2 of [main] hands to [create_record]. *)
Definition menu_new_record (today : py_date) (a : answers)
  : option LogRecord :=
  let new_record := generate_null_record today in
  match lookup SERVICE_TYPE (answer_service_type a) with
  | None => None
  | Some service_label =>
      if answer_service_type a =? 0 then
        match lookup PLANNED_WORK_WITH_PERIOD (answer_work_type a) with
        | None => None
        | Some (work, _) =>
            Some {| mileage := answer_mileage a; service_date := today;
                    type_ := service_label; service_description := work |}
        end
      else
        Some {| mileage := answer_mileage a; service_date := today;
                type_ := service_label;
                service_description := answer_description a |}
  end.

(** A scheduled brake-disc replacement at 60 000 km. *)
Definition brake_discs_record : LogRecord :=
  {| mileage := 60000;
     service_date := {| year := 2024; month := 8; day := 1 |};
     type_ := "плановое ТО";
     service_description := "Замена тормозных дисков" |}.

(** The due tasks of the catalog, in catalog order. *)
Definition due_entries (db : database) (current_mileage : Z)
  (items : list (Z * (string * Z))) : dict (Z * Z) :=
  map (fun item =>
         (fst (snd item),
          (last_mileage_of db (fst (snd item)),
           last_mileage_of db (fst (snd item)) + snd (snd item))))
      (filter (fun item =>
                 current_mileage >=?
                   last_mileage_of db (fst (snd item)) + snd (snd item)
                   - snd (snd item) / 10) items).

(** The ids in the table increase with insertion and never exceed the
    AUTOINCREMENT counter. *)
Definition ids_in_sequence (db : database) : Prop :=
  Sorted.StronglySorted Z.lt (map Logs.id (logs db)) /\
  Forall (fun i => i <= sqlite_sequence db) (map Logs.id (logs db)).

(** ** The query *)

Lemma select_insert (r : Logs.row) (s : list Logs.row) :
  select_mileage_limit_1 (insert_by_mileage_desc r s) =
  Some (match select_mileage_limit_1 s with
        | None => Logs.mileage r
        | Some y => Z.max (Logs.mileage r) y
        end).
Proof.
  destruct s as [|r' rest]; simpl; [reflexivity|].
  destruct (Z.ltb_spec (Logs.mileage r') (Logs.mileage r)); simpl; f_equal; lia.
Qed.

Lemma select_order_by (rows : list Logs.row) :
  select_mileage_limit_1 (order_by_mileage_desc rows) =
  max_opt (map Logs.mileage rows).
Proof.
  unfold order_by_mileage_desc.
  induction rows as [|r rows IH]; simpl; [reflexivity|].
  now rewrite select_insert, IH.
Qed.

Lemma GET_LAST_SERVICE_SQL_max (d : string) (db : database) :
  GET_LAST_SERVICE_SQL d db =
  max_opt (map Logs.mileage (where_description d (logs db))).
Proof. unfold GET_LAST_SERVICE_SQL. apply select_order_by. Qed.

Lemma max_opt_None (l : list Z) : max_opt l = None -> l = [].
Proof. destruct l; simpl; [reflexivity | discriminate]. Qed.

Lemma max_opt_Some (l : list Z) (x : Z) :
  max_opt l = Some x -> In x l /\ forall y, In y l -> y <= x.
Proof.
  revert x. induction l as [|a l IH]; simpl; intros x H; [discriminate|].
  destruct (max_opt l) as [y|] eqn:E.
  - destruct (IH y eq_refl) as [Hin Hmax]. injection H as <-.
    split.
    + destruct (Z.max_spec a y) as [[_ ->]|[_ ->]]; auto.
    + intros z [<-|Hz]; [lia|]. specialize (Hmax z Hz). lia.
  - apply max_opt_None in E. subst l. injection H as <-.
    split; [auto|]. intros z [<-|[]]. lia.
Qed.

Lemma max_opt_app (l : list Z) (x : Z) :
  max_opt (l ++ [x]) =
  Some (match max_opt l with None => x | Some y => Z.max y x end).
Proof.
  induction l as [|a l IH]; simpl; [reflexivity|].
  rewrite IH. destruct (max_opt l); f_equal; lia.
Qed.

Lemma where_description_In (d : string) (rows : list Logs.row) (r : Logs.row) :
  In r (where_description d rows) <-> In r rows /\ Logs.description r = d.
Proof.
  unfold where_description. rewrite filter_In.
  now rewrite String.eqb_eq.
Qed.

(** The query returns the mileage of the highest-mileage matching row. *)
Lemma last_mileage_of_latest (db : database) (d : string) :
  latest_mileage (logs db) d (last_mileage_of db d).
Proof.
  unfold last_mileage_of. rewrite GET_LAST_SERVICE_SQL_max.
  destruct (max_opt _) as [x|] eqn:E.
  - left. apply max_opt_Some in E. destruct E as [Hin Hmax].
    apply in_map_iff in Hin. destruct Hin as (r & Hr & Hin).
    apply where_description_In in Hin. destruct Hin as [Hin Hd].
    exists r. repeat split; auto.
    intros r' Hin' Hd'. apply Hmax. apply in_map.
    apply where_description_In. auto.
  - right. split; [|reflexivity].
    apply max_opt_None in E. apply map_eq_nil in E.
    intros r Hin Hd.
    assert (H : In r (where_description d (logs db)))
      by (apply where_description_In; auto).
    rewrite E in H. exact H.
Qed.

Lemma latest_mileage_unique (rows : list Logs.row) (d : string) (L1 L2 : Z) :
  latest_mileage rows d L1 -> latest_mileage rows d L2 -> L1 = L2.
Proof.
  intros [(r1 & I1 & D1 & M1 & U1)|[N1 ->]] [(r2 & I2 & D2 & M2 & U2)|[N2 ->]].
  - specialize (U1 r2 I2 D2). specialize (U2 r1 I1 D1). lia.
  - exfalso. exact (N2 r1 I1 D1).
  - exfalso. exact (N1 r2 I2 D2).
  - reflexivity.
Qed.

(** ** The admission of the catalog's periods *)

(** On every period of the catalog the float computation
    [int(period * 0.1)] is the integer quotient by ten. *)
Lemma catalog_admission :
  Forall (fun item => admission_of (snd (snd item)) =
                      Return (snd (snd item) / 10))
         PLANNED_WORK_WITH_PERIOD.
Proof. repeat constructor. Qed.

Lemma catalog_admission_value (work_id : Z) (work_desc : string) (period : Z) :
  In (work_id, (work_desc, period)) PLANNED_WORK_WITH_PERIOD ->
  admission_value period = period / 10.
Proof.
  intros Hin. unfold admission_value.
  pose proof catalog_admission as H. rewrite Forall_forall in H.
  specialize (H _ Hin). cbn [snd] in H. now rewrite H.
Qed.

Lemma catalog_descriptions_NoDup :
  NoDup (descriptions PLANNED_WORK_WITH_PERIOD).
Proof.
  assert (H : forall l : list string,
             (fix nodupb (l : list string) : bool :=
                match l with
                | [] => true
                | x :: t => negb (existsb (String.eqb x) t) && nodupb t
                end) l = true -> NoDup l).
  { induction l as [|x t IH]; intros E; constructor.
    - apply andb_prop in E. destruct E as [E _].
      intros Hin. rewrite negb_true_iff in E.
      assert (existsb (String.eqb x) t = true) as E'
        by (apply existsb_exists; exists x; split; [exact Hin|apply String.eqb_refl]).
      congruence.
    - apply andb_prop in E. now apply IH. }
  apply H. vm_compute. reflexivity.
Qed.

(** ** One evaluation, step by step *)

Section Evaluation.

Variables (f : fault_plan) (current_mileage : Z).

Lemma check_item_frame k item d db :
  snd (CarLogger.check_item f current_mileage k item d db) = db.
Proof.
  destruct item as [work_id [work_desc period]].
  unfold CarLogger.check_item, execute_get_last_service, store_op,
    bind, lift, ret.
  destruct (f k); simpl; [reflexivity|].
  destruct (admission_of period); simpl; [|reflexivity].
  destruct (_ >=? _); reflexivity.
Qed.

Lemma check_item_return k work_id work_desc period d db d' db' :
  CarLogger.check_item f current_mileage k (work_id, (work_desc, period)) d db
    = (Return d', db') ->
  f k = None /\
  d' = scan db current_mileage [(work_id, (work_desc, period))] d /\
  db' = db.
Proof.
  unfold CarLogger.check_item, execute_get_last_service, store_op,
    bind, lift, ret, scan, admission_value, last_mileage_of.
  destruct (f k); simpl; [discriminate|].
  destruct (admission_of period); simpl; [|discriminate].
  destruct (_ >=? _); intros [= <- <-]; auto.
Qed.

Lemma check_item_no_fault k work_id work_desc period d db a :
  f k = None ->
  admission_of period = Return a ->
  CarLogger.check_item f current_mileage k (work_id, (work_desc, period)) d db
    = (Return (scan db current_mileage [(work_id, (work_desc, period))] d),
       db).
Proof.
  intros Hf Ha.
  unfold CarLogger.check_item, execute_get_last_service, store_op,
    bind, lift, ret, scan, admission_value, last_mileage_of.
  rewrite Hf, Ha. simpl.
  destruct (_ >=? _); reflexivity.
Qed.

Lemma check_items_frame items : forall k d db,
  snd (CarLogger.check_items f current_mileage k items d db) = db.
Proof.
  induction items as [|item rest IH]; intros k d db; simpl; [reflexivity|].
  unfold bind.
  pose proof (check_item_frame k item d db) as Hfr.
  destruct (CarLogger.check_item f current_mileage k item d db) as [[d1|e] db1];
    simpl in Hfr; subst db1; [apply IH | reflexivity].
Qed.

Lemma check_items_return items : forall k d db d' db',
  CarLogger.check_items f current_mileage k items d db = (Return d', db') ->
  (forall j, (k <= j < k + List.length items)%nat -> f j = None) /\
  d' = scan db current_mileage items d /\
  db' = db.
Proof.
  induction items as [|[work_id [work_desc period]] rest IH];
    intros k d db d' db'.
  - simpl. unfold ret. intros [= <- <-]. repeat split. intros j Hj. lia.
  - cbn [CarLogger.check_items]. unfold bind.
    destruct (CarLogger.check_item _ _ _ _ _ _) as [[d1|e] db1] eqn:E1;
      [|discriminate].
    apply check_item_return in E1. destruct E1 as (Hk & -> & ->).
    intros E2. apply IH in E2. destruct E2 as (Hrest & -> & ->).
    repeat split.
    intros j Hj. cbn [List.length] in Hj.
    destruct (Nat.eq_dec j k) as [->|Hne]; [exact Hk|].
    apply Hrest. lia.
Qed.

Lemma check_items_no_fault items : forall k d db,
  (forall j, (k <= j < k + List.length items)%nat -> f j = None) ->
  Forall (fun item => exists a, admission_of (snd (snd item)) = Return a)
         items ->
  CarLogger.check_items f current_mileage k items d db =
    (Return (scan db current_mileage items d), db).
Proof.
  induction items as [|[work_id [work_desc period]] rest IH];
    intros k d db Hf Ha; [reflexivity|].
  cbn [CarLogger.check_items]. unfold bind.
  inversion Ha as [|? ? [a Hp] Hrest]; subst. cbn [snd] in Hp.
  rewrite (check_item_no_fault k work_id work_desc period d db a);
    [|apply Hf; cbn [List.length]; lia|exact Hp].
  rewrite IH; [reflexivity| |exact Hrest].
  intros j Hj. apply Hf. cbn [List.length]. lia.
Qed.

End Evaluation.

Lemma catalog_admission_defined :
  Forall (fun item => exists a, admission_of (snd (snd item)) = Return a)
         PLANNED_WORK_WITH_PERIOD.
Proof.
  eapply Forall_impl; [|exact catalog_admission].
  intros item H. eexists. exact H.
Qed.

(** The evaluation never changes the database. *)
Lemma check_necessary_service_frame f m db :
  snd (CarLogger.check_necessary_service f m db) = db.
Proof.
  unfold CarLogger.check_necessary_service, with_connection,
    _get_connection, store_op, lift, ret.
  destruct (f 0%nat); [reflexivity|].
  pose proof (check_items_frame f m PLANNED_WORK_WITH_PERIOD 1 [] db) as Hfr.
  destruct (CarLogger.check_items _ _ _ _ _ _) as [[d|e] db1];
    cbn [fst snd] in *; congruence.
Qed.

(** A returned mapping is the one of the full scan, made without a fault. *)
Lemma check_necessary_service_return f m db d :
  fst (CarLogger.check_necessary_service f m db) = Return d ->
  (forall j, (j <= List.length PLANNED_WORK_WITH_PERIOD)%nat -> f j = None) /\
  d = scan db m PLANNED_WORK_WITH_PERIOD [].
Proof.
  unfold CarLogger.check_necessary_service, with_connection,
    _get_connection, store_op, lift, ret.
  destruct (f 0%nat) eqn:F0; [discriminate|].
  destruct (CarLogger.check_items _ _ _ _ _ _) as [[d1|e] db1] eqn:E;
    cbn [fst]; [|discriminate].
  intros [= ->]. apply check_items_return in E. destruct E as (Hf & -> & _).
  split; [|reflexivity].
  intros j Hj. destruct j as [|j]; [exact F0|]. apply Hf. lia.
Qed.

(** Without a fault on the connection and the twelve queries the
    evaluation returns the mapping of the full scan. *)
Lemma check_necessary_service_no_fault f m db :
  (forall j, (j <= List.length PLANNED_WORK_WITH_PERIOD)%nat -> f j = None) ->
  CarLogger.check_necessary_service f m db =
    (Return (scan db m PLANNED_WORK_WITH_PERIOD []), db).
Proof.
  intros Hf.
  unfold CarLogger.check_necessary_service, with_connection,
    _get_connection, store_op, lift, ret.
  rewrite (Hf 0%nat) by lia.
  rewrite check_items_no_fault; [reflexivity| |exact catalog_admission_defined].
  intros j Hj. apply Hf. lia.
Qed.

(** ** Dictionaries *)

Lemma dict_get_set {V : Type} (d : dict V) (k k' : string) (v : V) :
  dict_get (dict_set d k v) k' =
  if String.eqb k k' then Some v else dict_get d k'.
Proof.
  induction d as [|[k0 v0] rest IH]; simpl.
  - reflexivity.
  - destruct (String.eqb_spec k0 k) as [->|Hne]; simpl.
    + destruct (String.eqb k k'); reflexivity.
    + rewrite IH. destruct (String.eqb_spec k0 k') as [->|Hne'].
      * destruct (String.eqb_spec k k'); [congruence|reflexivity].
      * reflexivity.
Qed.

Lemma dict_keys_get {V : Type} (d : dict V) (k : string) :
  In k (dict_keys d) <-> exists v, dict_get d k = Some v.
Proof.
  unfold dict_keys. induction d as [|[k0 v0] rest IH]; simpl.
  - split; [intros []|intros [v H]; discriminate].
  - destruct (String.eqb_spec k0 k) as [->|Hne].
    + split; [intros _; now exists v0|now left].
    + rewrite <- IH. split; [intros [H|H]; [congruence|exact H]|now right].
Qed.

Lemma dict_set_Forall {V : Type} (Q : string * V -> Prop) (d : dict V)
  (k : string) (v : V) :
  Forall Q d -> Q (k, v) -> Forall Q (dict_set d k v).
Proof.
  intros Hd Hk. induction Hd as [|[k0 v0] rest H0 Hrest IH]; simpl.
  - constructor; [exact Hk|constructor].
  - destruct (String.eqb_spec k0 k) as [->|Hne]; constructor; auto.
Qed.

(** ** The scan *)

Section Scan.

Variables (db : database) (current_mileage : Z).

Lemma scan_get_other items : forall d key,
  ~ In key (descriptions items) ->
  dict_get (scan db current_mileage items d) key = dict_get d key.
Proof.
  induction items as [|[work_id [work_desc period]] rest IH];
    intros d key Hn; simpl; [reflexivity|].
  simpl in Hn. rewrite IH by tauto.
  destruct (_ >=? _); [|reflexivity].
  rewrite dict_get_set.
  destruct (String.eqb_spec work_desc key); [tauto|reflexivity].
Qed.

Lemma scan_get_item items : forall d work_id work_desc period,
  NoDup (descriptions items) ->
  In (work_id, (work_desc, period)) items ->
  dict_get (scan db current_mileage items d) work_desc =
  if due db current_mileage work_desc period then Some (entry_of db work_desc period)
  else dict_get d work_desc.
Proof.
  induction items as [|[id0 [desc0 period0]] rest IH];
    intros d work_id work_desc period Hnd Hin; [destruct Hin|].
  simpl in Hnd. inversion Hnd as [|? ? Hnotin Hnd']; subst.
  destruct Hin as [[= -> -> ->]|Hin].
  - simpl. rewrite scan_get_other by exact Hnotin.
    unfold due, entry_of. destruct (_ >=? _); [|reflexivity].
    now rewrite dict_get_set, String.eqb_refl.
  - simpl. rewrite (IH _ work_id work_desc period Hnd' Hin).
    destruct (due db current_mileage work_desc period); [reflexivity|].
    destruct (_ >=? _); [|reflexivity].
    rewrite dict_get_set.
    destruct (String.eqb_spec desc0 work_desc) as [->|Hne]; [|reflexivity].
    exfalso. apply Hnotin. unfold descriptions. apply in_map_iff.
    exists (work_id, (work_desc, period)). split; [reflexivity|exact Hin].
Qed.

Lemma scan_Forall (Q : string * (Z * Z) -> Prop) items : forall d,
  (forall work_id work_desc period,
      In (work_id, (work_desc, period)) items ->
      due db current_mileage work_desc period = true ->
      Q (work_desc, entry_of db work_desc period)) ->
  Forall Q d ->
  Forall Q (scan db current_mileage items d).
Proof.
  induction items as [|[id0 [desc0 period0]] rest IH]; intros d HQ Hd;
    [exact Hd|].
  simpl. apply IH.
  - intros work_id work_desc period Hin. apply (HQ work_id). now right.
  - specialize (HQ id0 desc0 period0 (or_introl eq_refl)).
    unfold due, entry_of in HQ.
    destruct (_ >=? _); [|exact Hd].
    apply dict_set_Forall; auto.
Qed.

End Scan.

Lemma In_descriptions (items : list (Z * (string * Z))) (key : string) :
  In key (descriptions items) ->
  exists work_id period, In (work_id, (key, period)) items.
Proof.
  unfold descriptions. rewrite in_map_iff.
  intros ([work_id [work_desc period]] & <- & Hin). now exists work_id, period.
Qed.

(** The mapping of the full catalog scan, key by key. *)
Lemma scan_catalog_get db m work_id work_desc period :
  In (work_id, (work_desc, period)) PLANNED_WORK_WITH_PERIOD ->
  dict_get (scan db m PLANNED_WORK_WITH_PERIOD []) work_desc =
  if m >=? last_mileage_of db work_desc + period - period / 10
  then Some (last_mileage_of db work_desc,
             last_mileage_of db work_desc + period)
  else None.
Proof.
  intros Hin.
  rewrite (scan_get_item db m _ [] work_id work_desc period
             catalog_descriptions_NoDup Hin).
  unfold due, entry_of.
  now rewrite (catalog_admission_value work_id work_desc period Hin).
Qed.

Lemma scan_catalog_key db m key v :
  dict_get (scan db m PLANNED_WORK_WITH_PERIOD []) key = Some v ->
  exists work_id period,
    In (work_id, (key, period)) PLANNED_WORK_WITH_PERIOD.
Proof.
  intros H. apply In_descriptions.
  destruct (in_dec string_dec key (descriptions PLANNED_WORK_WITH_PERIOD))
    as [Hin|Hn]; [exact Hin|].
  rewrite scan_get_other in H by exact Hn. discriminate.
Qed.

(** * The due-service evaluation *)

(** C1: for every task of the catalog and every non-negative current
    mileage [m], the fault-free evaluation returns a mapping, and any
    returned mapping has the task's description as a key if and only if
    [m >= L + interval - floor(interval / 10)], where [L] is the mileage of
    the highest-mileage stored record with exactly that description, or 0
    when there is none; the value stored under the key is
    [(L, L + interval)]. *)
Theorem check_necessary_service_inclusion
  (db : database) (m work_id : Z) (work_desc : string) (period L : Z) :
  0 <= m ->
  In (work_id, (work_desc, period)) PLANNED_WORK_WITH_PERIOD ->
  latest_mileage (logs db) work_desc L ->
  (exists d, CarLogger.check_necessary_service no_fault m db = (Return d, db))
  /\ forall f d,
      fst (CarLogger.check_necessary_service f m db) = Return d ->
      (In work_desc (dict_keys d) <-> m >= L + period - period / 10) /\
      (In work_desc (dict_keys d) ->
       dict_get d work_desc = Some (L, L + period)).
Proof.
  intros _ Hin HL. split.
  - eexists. apply check_necessary_service_no_fault. reflexivity.
  - intros f d Hd. apply check_necessary_service_return in Hd.
    destruct Hd as [_ ->].
    rewrite (latest_mileage_unique _ _ _ _ HL (last_mileage_of_latest db work_desc)).
    rewrite dict_keys_get, (scan_catalog_get db m work_id work_desc period Hin).
    destruct (Z.geb_spec m (last_mileage_of db work_desc + period - period / 10)).
    + split; [split; [lia|now eexists]|reflexivity].
    + split; [split; [intros [v Hv]; discriminate|lia]|].
      intros [v Hv]; discriminate.
Qed.

Lemma check_necessary_service_inclusion_witness :
  (exists d, CarLogger.check_necessary_service no_fault 139999 sample_database
             = (Return d, sample_database))
  /\ forall f d,
      fst (CarLogger.check_necessary_service f 139999 sample_database)
        = Return d ->
      (In "Замена тормозных дисков" (dict_keys d) <->
       139999 >= 50000 + 100000 - 100000 / 10) /\
      (In "Замена тормозных дисков" (dict_keys d) ->
       dict_get d "Замена тормозных дисков" = Some (50000, 50000 + 100000)).
Proof.
  apply (check_necessary_service_inclusion sample_database 139999 2).
  - lia.
  - simpl. tauto.
  - left. exists brake_discs_row. simpl. repeat split; auto.
    intros r' [<-|[]] _. simpl. lia.
Defined.

(** C5: for every task of the catalog the tolerance computed by
    [int(period * 0.1)] is exactly the integer quotient of the (positive)
    interval by ten, where floor and truncation toward zero agree; this is
    the band the inclusion test of the loop body subtracts. *)
Theorem admission_is_one_tenth
  (work_id : Z) (work_desc : string) (period : Z) :
  In (work_id, (work_desc, period)) PLANNED_WORK_WITH_PERIOD ->
  0 < period /\
  admission_of period = Return (period / 10) /\
  period / 10 = period ÷ 10 /\
  forall m k d db,
    CarLogger.check_item no_fault m k (work_id, (work_desc, period)) d db =
    (Return (if m >=? last_mileage_of db work_desc + period - period / 10
             then dict_set d work_desc
                    (last_mileage_of db work_desc,
                     last_mileage_of db work_desc + period)
             else d), db).
Proof.
  intros Hin.
  assert (Hpos : 0 < period).
  { simpl in Hin.
    repeat (destruct Hin as [[= <- <- <-]|Hin]; [lia|]). destruct Hin. }
  pose proof catalog_admission as H. rewrite Forall_forall in H.
  specialize (H _ Hin). cbn [snd] in H.
  repeat split; [exact Hpos|exact H| |].
  - symmetry. apply Z.quot_div_nonneg; lia.
  - intros m k d db.
    rewrite (check_item_no_fault no_fault m k work_id work_desc period d db
               (period / 10) eq_refl H).
    cbn [scan]. unfold admission_value. rewrite H. reflexivity.
Qed.

Lemma admission_is_one_tenth_witness :
  0 < 15000 /\
  admission_of 15000 = Return (15000 / 10) /\
  15000 / 10 = 15000 ÷ 10 /\
  forall m k d db,
    CarLogger.check_item no_fault m k
      (0, ("Замена масла в двигателе", 15000)) d db =
    (Return (if m >=? last_mileage_of db "Замена масла в двигателе"
                      + 15000 - 15000 / 10
             then dict_set d "Замена масла в двигателе"
                    (last_mileage_of db "Замена масла в двигателе",
                     last_mileage_of db "Замена масла в двигателе" + 15000)
             else d), db).
Proof.
  apply (admission_is_one_tenth 0 "Замена масла в двигателе" 15000).
  simpl. tauto.
Defined.

(** C6: monotonicity.  On a fixed store, for mileages [m1 <= m2], every
    task included in the mapping returned for [m1] is included, with the
    same entry, in the mapping returned for [m2]. *)
Theorem check_necessary_service_monotone
  (db : database) (m1 m2 : Z) (f1 f2 : fault_plan) (d1 d2 : dict (Z * Z)) :
  m1 <= m2 ->
  fst (CarLogger.check_necessary_service f1 m1 db) = Return d1 ->
  fst (CarLogger.check_necessary_service f2 m2 db) = Return d2 ->
  incl (dict_keys d1) (dict_keys d2) /\
  forall key entry, dict_get d1 key = Some entry ->
                    dict_get d2 key = Some entry.
Proof.
  intros Hle H1 H2.
  apply check_necessary_service_return in H1, H2.
  destruct H1 as [_ ->], H2 as [_ ->].
  assert (Hget : forall key entry,
             dict_get (scan db m1 PLANNED_WORK_WITH_PERIOD []) key = Some entry ->
             dict_get (scan db m2 PLANNED_WORK_WITH_PERIOD []) key = Some entry).
  { intros key entry Hk.
    destruct (scan_catalog_key _ _ _ _ Hk) as (work_id & period & Hin).
    rewrite (scan_catalog_get db m1 work_id key period Hin) in Hk.
    rewrite (scan_catalog_get db m2 work_id key period Hin).
    destruct (Z.geb_spec m1 (last_mileage_of db key + period - period / 10));
      [|discriminate].
    destruct (Z.geb_spec m2 (last_mileage_of db key + period - period / 10));
      [exact Hk|lia]. }
  split; [|exact Hget].
  intros key Hk. apply dict_keys_get in Hk. destruct Hk as [entry Hk].
  apply dict_keys_get. exists entry. now apply Hget.
Qed.

Lemma check_necessary_service_monotone_witness :
  incl (dict_keys [("Замена масла в двигателе", (0, 15000));
                   ("Замена масляного фильтра", (0, 15000))])
       (dict_keys (scan empty_database 18000 PLANNED_WORK_WITH_PERIOD [])) /\
  forall key entry,
    dict_get [("Замена масла в двигателе", (0, 15000));
              ("Замена масляного фильтра", (0, 15000))] key = Some entry ->
    dict_get (scan empty_database 18000 PLANNED_WORK_WITH_PERIOD []) key
      = Some entry.
Proof.
  apply (check_necessary_service_monotone empty_database 13500 18000
           no_fault no_fault).
  - lia.
  - vm_compute. reflexivity.
  - vm_compute. reflexivity.
Defined.

(** C9: idempotence.  A second evaluation at the same mileage, run on the
    store as the first one left it, has the same outcome as the first; and
    whenever two consecutive evaluations both return a mapping, the two
    mappings are identical. *)
Theorem check_necessary_service_idempotent (m : Z) (db : database) :
  (forall f,
      CarLogger.check_necessary_service f m
        (snd (CarLogger.check_necessary_service f m db))
      = CarLogger.check_necessary_service f m db) /\
  (forall f1 f2 d1 d2,
      fst (CarLogger.check_necessary_service f1 m db) = Return d1 ->
      fst (CarLogger.check_necessary_service f2 m
             (snd (CarLogger.check_necessary_service f1 m db))) = Return d2 ->
      d1 = d2).
Proof.
  split.
  - intros f. now rewrite check_necessary_service_frame.
  - intros f1 f2 d1 d2 H1 H2.
    rewrite check_necessary_service_frame in H2.
    apply check_necessary_service_return in H1, H2.
    destruct H1 as [_ ->], H2 as [_ ->]. reflexivity.
Qed.

(** C10: the evaluation is read-only.  Whatever the mileage and whether
    or not the store fails, [check_necessary_service] leaves the database
    as it found it: same rows, same id counter. *)
Theorem check_necessary_service_read_only
  (f : fault_plan) (m : Z) (db : database) :
  snd (CarLogger.check_necessary_service f m db) = db /\
  logs (snd (CarLogger.check_necessary_service f m db)) = logs db.
Proof.
  rewrite check_necessary_service_frame. split; reflexivity.
Qed.

(** ** Faults *)

Section Faults.

Variables (f : fault_plan) (current_mileage : Z).

Lemma check_item_raise k work_id work_desc period d db e db' a :
  admission_of period = Return a ->
  CarLogger.check_item f current_mileage k (work_id, (work_desc, period)) d db
    = (Raise e, db') ->
  f k = Some e.
Proof.
  intros Ha.
  unfold CarLogger.check_item, execute_get_last_service, store_op,
    bind, lift, ret.
  destruct (f k); simpl; [now intros [= ->]|].
  rewrite Ha. simpl. destruct (_ >=? _); discriminate.
Qed.

(** When the loop raises, it raises the first fault of the plan. *)
Lemma check_items_raise items : forall k d db e db',
  Forall (fun item => exists a, admission_of (snd (snd item)) = Return a)
         items ->
  CarLogger.check_items f current_mileage k items d db = (Raise e, db') ->
  exists j, (k <= j < k + List.length items)%nat /\ f j = Some e /\
            forall i, (k <= i < j)%nat -> f i = None.
Proof.
  induction items as [|[work_id [work_desc period]] rest IH];
    intros k d db e db' Ha; [discriminate|].
  inversion Ha as [|? ? [a Hp] Hrest]; subst. cbn [snd] in Hp.
  cbn [CarLogger.check_items]. unfold bind.
  destruct (CarLogger.check_item _ _ _ _ _ _) as [[d1|e1] db1] eqn:E1.
  - apply check_item_return in E1. destruct E1 as (Hk & _ & _).
    intros E2. destruct (IH _ _ _ _ _ Hrest E2) as (j & Hj & Hfj & Hbefore).
    exists j. cbn [List.length]. repeat split; [lia|lia|exact Hfj|].
    intros i Hi. destruct (Nat.eq_dec i k) as [->|Hne]; [exact Hk|].
    apply Hbefore. lia.
  - intros [= <- <-]. apply (check_item_raise _ _ _ _ _ _ _ _ a Hp) in E1.
    exists k. cbn [List.length]. repeat split; [lia|lia|exact E1|].
    intros i Hi. lia.
Qed.

Lemma check_necessary_service_raise db e :
  fst (CarLogger.check_necessary_service f current_mileage db) = Raise e ->
  exists j, (j <= List.length PLANNED_WORK_WITH_PERIOD)%nat /\
            f j = Some e /\ forall i, (i < j)%nat -> f i = None.
Proof.
  unfold CarLogger.check_necessary_service, with_connection,
    _get_connection, store_op, lift, ret.
  destruct (f 0%nat) eqn:F0.
  - cbn [fst]. intros [= ->]. exists 0%nat. repeat split; [lia|exact F0|].
    intros i Hi. lia.
  - destruct (CarLogger.check_items _ _ _ _ _ _) as [[d1|e1] db1] eqn:E;
      cbn [fst]; [discriminate|].
    intros [= ->].
    destruct (check_items_raise _ _ _ _ _ _ catalog_admission_defined E)
      as (j & Hj & Hfj & Hbefore).
    exists j. repeat split; [lia|exact Hfj|].
    intros i Hi. destruct i as [|i]; [exact F0|]. apply Hbefore. lia.
Qed.

Lemma check_item_ext k item d db1 db2 :
  GET_LAST_SERVICE_SQL (fst (snd item)) db1 =
  GET_LAST_SERVICE_SQL (fst (snd item)) db2 ->
  fst (CarLogger.check_item f current_mileage k item d db1) =
  fst (CarLogger.check_item f current_mileage k item d db2).
Proof.
  destruct item as [work_id [work_desc period]]. cbn [fst snd]. intros H.
  unfold CarLogger.check_item, execute_get_last_service, store_op,
    bind, lift, ret.
  destruct (f k); [reflexivity|]. rewrite H.
  destruct (admission_of period); [|reflexivity].
  destruct (_ >=? _); reflexivity.
Qed.

Lemma check_items_ext items : forall k d db1 db2,
  (forall item, In item items ->
     GET_LAST_SERVICE_SQL (fst (snd item)) db1 =
     GET_LAST_SERVICE_SQL (fst (snd item)) db2) ->
  fst (CarLogger.check_items f current_mileage k items d db1) =
  fst (CarLogger.check_items f current_mileage k items d db2).
Proof.
  induction items as [|item rest IH]; intros k d db1 db2 H; [reflexivity|].
  cbn [CarLogger.check_items]. unfold bind.
  pose proof (check_item_frame f current_mileage k item d db1) as F1.
  pose proof (check_item_frame f current_mileage k item d db2) as F2.
  pose proof (check_item_ext k item d db1 db2 (H item (or_introl eq_refl)))
    as Hx.
  destruct (CarLogger.check_item _ _ _ _ _ db1) as [o1 s1].
  destruct (CarLogger.check_item _ _ _ _ _ db2) as [o2 s2].
  cbn [fst snd] in *. subst s1 s2 o2.
  destruct o1 as [d1|e]; [|reflexivity].
  apply IH. intros it Hit. apply H. now right.
Qed.

End Faults.

(** ** What the evaluation sees of the store *)

Lemma where_description_relevant (d : string) (db : database) :
  in_catalog d = true ->
  map Logs.mileage (where_description d (logs db)) =
  map fst (filter (fun p => String.eqb (snd p) d) (relevant db)).
Proof.
  intros Hd. unfold relevant, where_description.
  induction (logs db) as [|r rows IH]; [reflexivity|].
  cbn [filter].
  destruct (String.eqb_spec (Logs.description r) d) as [E|NE].
  - assert (Hc : in_catalog (Logs.description r) = true) by (now rewrite E).
    rewrite Hc. cbn [map filter snd].
    destruct (String.eqb_spec (Logs.description r) d); [|contradiction].
    cbn [map fst]. now rewrite IH.
  - destruct (in_catalog (Logs.description r)); [|exact IH].
    cbn [map filter snd].
    destruct (String.eqb_spec (Logs.description r) d); [contradiction|].
    exact IH.
Qed.

Lemma in_catalog_item (item : Z * (string * Z)) :
  In item PLANNED_WORK_WITH_PERIOD -> in_catalog (fst (snd item)) = true.
Proof.
  intros Hin. unfold in_catalog. apply existsb_exists.
  exists (fst (snd item)). split; [|apply String.eqb_refl].
  unfold descriptions. apply in_map_iff. now exists item.
Qed.

Lemma check_necessary_service_ext f m db1 db2 :
  relevant db1 = relevant db2 ->
  fst (CarLogger.check_necessary_service f m db1) =
  fst (CarLogger.check_necessary_service f m db2).
Proof.
  intros Hrel.
  assert (Hx : fst (CarLogger.check_items f m 1 PLANNED_WORK_WITH_PERIOD [] db1)
               = fst (CarLogger.check_items f m 1 PLANNED_WORK_WITH_PERIOD [] db2)).
  { apply check_items_ext. intros item Hin.
    rewrite !GET_LAST_SERVICE_SQL_max.
    rewrite !where_description_relevant by (now apply in_catalog_item).
    now rewrite Hrel. }
  unfold CarLogger.check_necessary_service, with_connection,
    _get_connection, store_op, lift, ret.
  destruct (f 0%nat); [reflexivity|].
  destruct (CarLogger.check_items _ _ _ _ _ db1) as [o1 s1].
  destruct (CarLogger.check_items _ _ _ _ _ db2) as [o2 s2].
  cbn [fst] in Hx. subst o2. destruct o1; reflexivity.
Qed.

(** ** Appending *)

Lemma create_record_cases (f : fault_plan) (r : LogRecord) (db : database) :
  CarLogger.create_record f r db =
  match f 0%nat, f 1%nat, bind_int (mileage r), f 2%nat with
  | Some e, _, _, _ => (Raise e, db)
  | None, Some e, _, _ => (Raise e, db)
  | None, None, Raise e, _ => (Raise e, db)
  | None, None, Return _, Some e => (Raise e, db)
  | None, None, Return m, None =>
      (Return (sqlite_sequence db + 1),
       snd (CREATE_RECORD_SQL m (isoformat (service_date r)) (type_ r)
              (service_description r) db))
  end.
Proof.
  unfold CarLogger.create_record, with_connection, _get_connection,
    execute_create_record, commit, store_op, bind, lift, ret.
  destruct (f 0%nat); [reflexivity|].
  destruct (f 1%nat); [reflexivity|].
  destruct (bind_int (mileage r)); [|reflexivity].
  cbn. destruct (f 2%nat); reflexivity.
Qed.

Lemma bind_int_Return (n m : Z) : bind_int n = Return m -> m = n.
Proof.
  unfold bind_int. destruct (_ && _); [now intros [= <-]|discriminate].
Qed.

Lemma bind_int_in_range (n : Z) :
  - 2 ^ 63 <= n < 2 ^ 63 -> bind_int n = Return n.
Proof.
  intros H. unfold bind_int.
  destruct (Z.leb_spec (- 2 ^ 63) n); [|lia].
  destruct (Z.ltb_spec n (2 ^ 63)); [reflexivity|lia].
Qed.

(** A successful append adds exactly the record's row at the end. *)
Lemma create_record_return f r db rowid db' :
  CarLogger.create_record f r db = (Return rowid, db') ->
  rowid = sqlite_sequence db + 1 /\
  db' = {| logs := logs db ++
                   [ {| Logs.id := rowid; Logs.mileage := mileage r;
                        Logs.date := isoformat (service_date r);
                        Logs.type := type_ r;
                        Logs.description := service_description r |} ];
           sqlite_sequence := rowid |}.
Proof.
  rewrite create_record_cases.
  destruct (f 0%nat); [discriminate|].
  destruct (f 1%nat); [discriminate|].
  destruct (bind_int (mileage r)) as [m'|] eqn:E; [|discriminate].
  destruct (f 2%nat); [discriminate|].
  apply bind_int_Return in E. subst m'.
  intros [= <- <-]. split; reflexivity.
Qed.

Lemma create_record_raise f r db e :
  fst (CarLogger.create_record f r db) = Raise e ->
  snd (CarLogger.create_record f r db) = db.
Proof.
  rewrite create_record_cases.
  destruct (f 0%nat); [reflexivity|].
  destruct (f 1%nat); [reflexivity|].
  destruct (bind_int (mileage r)); [|reflexivity].
  destruct (f 2%nat); [reflexivity|discriminate].
Qed.

(** * The store contract *)

(** C2, as stated, fails: the lookup returns the highest mileage stored
    under the description, so a record appended with a lower mileage than
    an earlier one is not the one returned. *)
Lemma append_then_find_counterexample :
  ~ append_then_find_returns_appended late_record sample_database.
Proof.
  intros H.
  specialize (H 2 (snd (CarLogger.create_record no_fault late_record
                          sample_database)) eq_refl).
  vm_compute in H. discriminate.
Qed.

(** C2, amended: after a successful append of [r], the lookup of [r]'s
    description returns the greatest mileage among [r]'s and those of the
    records stored before under that description; it is [r]'s mileage
    whenever no such earlier record has a greater one. *)
Theorem append_then_find_latest
  (f : fault_plan) (r : LogRecord) (db : database) (rowid : Z)
  (db' : database) (k : nat) :
  CarLogger.create_record f r db = (Return rowid, db') ->
  execute_get_last_service no_fault k (service_description r) db' =
    (Return (Some (match GET_LAST_SERVICE_SQL (service_description r) db with
                   | None => mileage r
                   | Some L => Z.max L (mileage r)
                   end)), db') /\
  ((forall row, In row (logs db) ->
                Logs.description row = service_description r ->
                Logs.mileage row <= mileage r) ->
   execute_get_last_service no_fault k (service_description r) db' =
     (Return (Some (mileage r)), db')).
Proof.
  intros Hc. apply create_record_return in Hc. destruct Hc as [-> ->].
  assert (Hq : GET_LAST_SERVICE_SQL (service_description r)
                 {| logs := logs db ++
                      [ {| Logs.id := sqlite_sequence db + 1;
                           Logs.mileage := mileage r;
                           Logs.date := isoformat (service_date r);
                           Logs.type := type_ r;
                           Logs.description := service_description r |} ];
                    sqlite_sequence := sqlite_sequence db + 1 |} =
               Some (match GET_LAST_SERVICE_SQL (service_description r) db with
                     | None => mileage r
                     | Some L => Z.max L (mileage r)
                     end)).
  { rewrite !GET_LAST_SERVICE_SQL_max. cbn [logs].
    unfold where_description. rewrite filter_app. cbn [filter Logs.description].
    rewrite String.eqb_refl, map_app. cbn [map Logs.mileage].
    apply max_opt_app. }
  unfold execute_get_last_service, store_op, no_fault. rewrite Hq.
  split; [reflexivity|].
  intros Hle. do 3 f_equal.
  destruct (GET_LAST_SERVICE_SQL (service_description r) db) as [L|] eqn:E;
    [|reflexivity].
  rewrite GET_LAST_SERVICE_SQL_max in E. apply max_opt_Some in E.
  destruct E as [Hin _]. apply in_map_iff in Hin.
  destruct Hin as (row & Hm & Hin). apply where_description_In in Hin.
  destruct Hin as [Hin Hd]. specialize (Hle row Hin Hd). lia.
Qed.

Lemma append_then_find_latest_witness :
  execute_get_last_service no_fault 1 "Замена тормозных дисков"
    (snd (CarLogger.create_record no_fault late_record sample_database)) =
    (Return (Some (match GET_LAST_SERVICE_SQL "Замена тормозных дисков"
                           sample_database with
                   | None => 30000
                   | Some L => Z.max L 30000
                   end)),
     snd (CarLogger.create_record no_fault late_record sample_database)) /\
  ((forall row, In row (logs sample_database) ->
                Logs.description row = "Замена тормозных дисков" ->
                Logs.mileage row <= 30000) ->
   execute_get_last_service no_fault 1 "Замена тормозных дисков"
     (snd (CarLogger.create_record no_fault late_record sample_database)) =
     (Return (Some 30000),
      snd (CarLogger.create_record no_fault late_record sample_database))).
Proof.
  apply (append_then_find_latest no_fault late_record sample_database 2
           (snd (CarLogger.create_record no_fault late_record sample_database))
           1%nat).
  vm_compute. reflexivity.
Defined.

(** C4, as stated, fails: nothing on the path of [create_record] looks at
    the sign of the mileage or at the description, and the record is
    stored. *)
Lemma invalid_input_rejected_counterexample :
  ~ invalid_input_rejected invalid_record empty_database.
Proof.
  intros H. destruct (H (or_intror eq_refl) no_fault) as [e He].
  vm_compute in He. discriminate.
Qed.

(** C4, amended: [create_record] validates nothing.  Whatever the sign of
    the mileage (within SQLite's signed 64-bit integers) and whatever the
    description, the empty one included, a fault-free append stores the
    record as given at the end of the table and returns its new id; and
    whenever an append does raise, the database is left as it was. *)
Theorem create_record_stores_as_given (r : LogRecord) (db : database) :
  - 2 ^ 63 <= mileage r < 2 ^ 63 ->
  CarLogger.create_record no_fault r db =
    (Return (sqlite_sequence db + 1),
     {| logs := logs db ++
                [ {| Logs.id := sqlite_sequence db + 1;
                     Logs.mileage := mileage r;
                     Logs.date := isoformat (service_date r);
                     Logs.type := type_ r;
                     Logs.description := service_description r |} ];
        sqlite_sequence := sqlite_sequence db + 1 |}) /\
  forall f e, fst (CarLogger.create_record f r db) = Raise e ->
              snd (CarLogger.create_record f r db) = db.
Proof.
  intros Hr. split.
  - rewrite create_record_cases. unfold no_fault.
    rewrite (bind_int_in_range _ Hr). reflexivity.
  - intros f e. apply create_record_raise.
Qed.

Lemma create_record_stores_as_given_witness :
  CarLogger.create_record no_fault invalid_record empty_database =
    (Return 1,
     {| logs := [ {| Logs.id := 1; Logs.mileage := -5;
                     Logs.date := "2024-05-17";
                     Logs.type := "внеплановый ремонт";
                     Logs.description := "" |} ];
        sqlite_sequence := 1 |}) /\
  forall f e,
    fst (CarLogger.create_record f invalid_record empty_database) = Raise e ->
    snd (CarLogger.create_record f invalid_record empty_database)
    = empty_database.
Proof.
  apply (create_record_stores_as_given invalid_record empty_database).
  simpl. lia.
Defined.

(** * Unscheduled repairs *)

(** C3, as stated, fails: the lookup filters on the description only, so
    an unscheduled repair whose free text is a catalog description is
    selected, and it moves the task's threshold. *)
Lemma repairs_never_influence_counterexample :
  ~ repairs_never_influence repair_database 95000.
Proof.
  intros [_ H]. vm_compute in H. discriminate.
Qed.

(** C3, amended: the evaluation sees of the store only the mileage and
    the description of the rows whose description is a catalog
    description.  Rows with any other description (unscheduled repairs
    entered with other free text among them) never match a catalog entry
    and never influence the outcome, and the category of a row is never
    read. *)
Theorem evaluation_sees_catalog_descriptions_only
  (f : fault_plan) (m : Z) (db1 db2 : database) :
  relevant db1 = relevant db2 ->
  (forall work_desc, In work_desc (descriptions PLANNED_WORK_WITH_PERIOD) ->
     GET_LAST_SERVICE_SQL work_desc db1 = GET_LAST_SERVICE_SQL work_desc db2) /\
  fst (CarLogger.check_necessary_service f m db1) =
  fst (CarLogger.check_necessary_service f m db2).
Proof.
  intros Hrel. split.
  - intros work_desc Hin.
    assert (Hc : in_catalog work_desc = true).
    { unfold in_catalog. apply existsb_exists. exists work_desc.
      split; [exact Hin|apply String.eqb_refl]. }
    rewrite !GET_LAST_SERVICE_SQL_max, !where_description_relevant by exact Hc.
    now rewrite Hrel.
  - now apply check_necessary_service_ext.
Qed.

Lemma evaluation_sees_catalog_descriptions_only_witness :
  (forall work_desc, In work_desc (descriptions PLANNED_WORK_WITH_PERIOD) ->
     GET_LAST_SERVICE_SQL work_desc
       {| logs := [ {| Logs.id := 1; Logs.mileage := 70000;
                       Logs.date := "2024-01-02";
                       Logs.type := "внеплановый ремонт";
                       Logs.description := "Замена лампы" |};
                    brake_discs_row ];
          sqlite_sequence := 2 |} =
     GET_LAST_SERVICE_SQL work_desc sample_database) /\
  fst (CarLogger.check_necessary_service no_fault 139999
         {| logs := [ {| Logs.id := 1; Logs.mileage := 70000;
                         Logs.date := "2024-01-02";
                         Logs.type := "внеплановый ремонт";
                         Logs.description := "Замена лампы" |};
                      brake_discs_row ];
            sqlite_sequence := 2 |}) =
  fst (CarLogger.check_necessary_service no_fault 139999 sample_database).
Proof.
  apply (evaluation_sees_catalog_descriptions_only no_fault 139999).
  vm_compute. reflexivity.
Defined.

(** * The status shown to the user *)

Lemma status_strings_differ :
  CarLogger.status_required <> CarLogger.status_soon.
Proof. vm_compute. discriminate. Qed.

(** Every entry of the full scan comes from a catalog task that passed
    the inclusion test. *)
Lemma scan_catalog_entries db m :
  Forall (fun entry =>
            exists work_id period,
              In (work_id, (fst entry, period)) PLANNED_WORK_WITH_PERIOD /\
              snd entry = entry_of db (fst entry) period /\
              m >= last_mileage_of db (fst entry) + period - period / 10)
         (scan db m PLANNED_WORK_WITH_PERIOD []).
Proof.
  apply scan_Forall; [|constructor].
  intros work_id work_desc period Hin Hdue.
  exists work_id, period. cbn [fst snd]. repeat split; [exact Hin|].
  unfold due in Hdue.
  rewrite (catalog_admission_value work_id work_desc period Hin) in Hdue.
  destruct (Z.geb_spec m (last_mileage_of db work_desc + period - period / 10));
    [lia|discriminate].
Qed.

(** C7: when [display_service_status] shows the table, its rows are those
    of the returned mapping, in order; each entry belongs to a catalog
    task, and its status is "required" exactly when
    [current_mileage >= next_service] and "soon" exactly when
    [next_service - tolerance <= current_mileage < next_service]; every
    row carries one of the two statuses, and the two are different. *)
Theorem display_service_status_statuses
  (f : fault_plan) (m : Z) (db : database)
  (rows : list CarLogger.table_row) :
  fst (CarLogger.display_service_status f m db)
    = Return (CarLogger.ServiceTable rows) ->
  exists d,
    fst (CarLogger.check_necessary_service f m db) = Return d /\
    rows = map (CarLogger.status_row m) d /\
    CarLogger.status_required <> CarLogger.status_soon /\
    forall work_desc last_mileage next_service,
      In (work_desc, (last_mileage, next_service)) d ->
      exists work_id period,
        In (work_id, (work_desc, period)) PLANNED_WORK_WITH_PERIOD /\
        next_service = last_mileage + period /\
        let status :=
          CarLogger.cell_status
            (CarLogger.status_row m (work_desc, (last_mileage, next_service)))
        in
        (status = CarLogger.status_required <-> m >= next_service) /\
        (status = CarLogger.status_soon <->
         next_service - period / 10 <= m < next_service) /\
        (status = CarLogger.status_required \/
         status = CarLogger.status_soon).
Proof.
  unfold CarLogger.display_service_status.
  destruct (CarLogger.check_necessary_service f m db) as [[d|e] db1] eqn:E.
  - destruct d as [|entry d']; cbn [fst]; [discriminate|].
    intros [= <-]. exists (entry :: d'). repeat split;
      [exact status_strings_differ|].
    assert (Hd : entry :: d' = scan db m PLANNED_WORK_WITH_PERIOD []).
    { apply (check_necessary_service_return f m db). now rewrite E. }
    rewrite Hd. intros work_desc last_mileage next_service Hin.
    pose proof (scan_catalog_entries db m) as HF.
    rewrite Forall_forall in HF. specialize (HF _ Hin).
    cbn [fst snd] in HF. destruct HF as (work_id & period & Hcat & Hent & Hdue).
    unfold entry_of in Hent. injection Hent as -> ->.
    exists work_id, period. split; [exact Hcat|]. split; [reflexivity|].
    cbn [CarLogger.status_row CarLogger.cell_status].
    pose proof status_strings_differ as Hne.
    destruct (Z.geb_spec m (last_mileage_of db work_desc + period)).
    + repeat split; try lia; try (now left); intros; congruence.
    + repeat split; try lia; try (now right); intros; congruence.
  - cbn [fst]. destruct e; discriminate.
Qed.

Lemma display_service_status_statuses_witness :
  exists d,
    fst (CarLogger.check_necessary_service no_fault 13500 empty_database)
      = Return d /\
    map (CarLogger.status_row 13500)
        [("Замена масла в двигателе", (0, 15000));
         ("Замена масляного фильтра", (0, 15000))]
      = map (CarLogger.status_row 13500) d /\
    CarLogger.status_required <> CarLogger.status_soon /\
    forall work_desc last_mileage next_service,
      In (work_desc, (last_mileage, next_service)) d ->
      exists work_id period,
        In (work_id, (work_desc, period)) PLANNED_WORK_WITH_PERIOD /\
        next_service = last_mileage + period /\
        let status :=
          CarLogger.cell_status
            (CarLogger.status_row 13500
               (work_desc, (last_mileage, next_service)))
        in
        (status = CarLogger.status_required <-> 13500 >= next_service) /\
        (status = CarLogger.status_soon <->
         next_service - period / 10 <= 13500 < next_service) /\
        (status = CarLogger.status_required \/
         status = CarLogger.status_soon).
Proof.
  apply (display_service_status_statuses no_fault 13500 empty_database).
  vm_compute. reflexivity.
Defined.

(** * Failures of the store *)

(** C8, as stated, fails: [display_service_status] catches
    [sqlite3.OperationalError] only.  A query that fails with another
    exception, [DatabaseError] here, makes the evaluation raise, and the
    exception leaves [display_service_status] without any report being
    printed. *)
Lemma failure_is_reported_counterexample :
  ~ failure_is_reported (fault_at_fifth_query DatabaseError) 13500
      empty_database.
Proof.
  intros H. destruct H as [e He].
  - exists 5%nat, DatabaseError. split; [vm_compute; lia|reflexivity].
  - vm_compute in He. discriminate.
Qed.

(** C8, amended: the evaluation fails as a whole.  A mapping is returned
    only when the connection and every query of the catalog scan
    succeeded, and it is then the mapping of the complete scan; as soon
    as one of these operations fails, [check_necessary_service] raises
    the first failure.  When that failure is an [OperationalError],
    [display_service_status] prints the error line in place of a result;
    and whatever the failure, it shows neither the "no service required"
    panel nor a table. *)
Theorem evaluation_fails_as_a_whole
  (f : fault_plan) (m : Z) (db : database) :
  (forall d,
      fst (CarLogger.check_necessary_service f m db) = Return d ->
      (forall j, (j <= List.length PLANNED_WORK_WITH_PERIOD)%nat ->
                 f j = None) /\
      fst (CarLogger.check_necessary_service no_fault m db) = Return d) /\
  (forall k e,
      (k <= List.length PLANNED_WORK_WITH_PERIOD)%nat ->
      f k = Some e ->
      exists j e',
        (j <= k)%nat /\ f j = Some e' /\
        (forall i, (i < j)%nat -> f i = None) /\
        fst (CarLogger.check_necessary_service f m db) = Raise e' /\
        (e' = OperationalError ->
         fst (CarLogger.display_service_status f m db)
         = Return (CarLogger.ErrorLine OperationalError)) /\
        fst (CarLogger.display_service_status f m db)
          <> Return CarLogger.AllClearPanel /\
        forall rows, fst (CarLogger.display_service_status f m db)
                     <> Return (CarLogger.ServiceTable rows)).
Proof.
  split.
  - intros d Hd. apply check_necessary_service_return in Hd.
    destruct Hd as [Hf ->]. split; [exact Hf|].
    now rewrite check_necessary_service_no_fault.
  - intros k e Hk Hfk.
    destruct (fst (CarLogger.check_necessary_service f m db)) as [d|e'] eqn:E.
    + apply check_necessary_service_return in E. destruct E as [Hf _].
      rewrite (Hf k Hk) in Hfk. discriminate.
    + destruct (check_necessary_service_raise f m db e' E)
        as (j & Hj & Hfj & Hbefore).
      exists j, e'.
      assert (Hjk : (j <= k)%nat).
      { destruct (Nat.le_gt_cases j k) as [H|H]; [exact H|].
        rewrite (Hbefore k H) in Hfk. discriminate. }
      assert (Hdisp : fst (CarLogger.display_service_status f m db) =
                      match e' with
                      | OperationalError =>
                          Return (CarLogger.ErrorLine OperationalError)
                      | _ => Raise e'
                      end).
      { unfold CarLogger.display_service_status.
        destruct (CarLogger.check_necessary_service f m db) as [o db1].
        cbn [fst] in E. subst o. destruct e'; reflexivity. }
      split; [exact Hjk|]. split; [exact Hfj|]. split; [exact Hbefore|].
      split; [reflexivity|]. split; [|split].
      * intros ->. exact Hdisp.
      * rewrite Hdisp. destruct e'; discriminate.
      * intros rows. rewrite Hdisp. destruct e'; discriminate.
Qed.

Lemma evaluation_fails_as_a_whole_witness :
  exists j e',
    (j <= 5)%nat /\ fault_at_fifth_query OperationalError j = Some e' /\
    (forall i, (i < j)%nat ->
               fault_at_fifth_query OperationalError i = None) /\
    fst (CarLogger.check_necessary_service
           (fault_at_fifth_query OperationalError) 13500 empty_database)
      = Raise e' /\
    (e' = OperationalError ->
     fst (CarLogger.display_service_status
            (fault_at_fifth_query OperationalError) 13500 empty_database)
     = Return (CarLogger.ErrorLine OperationalError)) /\
    fst (CarLogger.display_service_status
           (fault_at_fifth_query OperationalError) 13500 empty_database)
      <> Return CarLogger.AllClearPanel /\
    forall rows,
      fst (CarLogger.display_service_status
             (fault_at_fifth_query OperationalError) 13500 empty_database)
      <> Return (CarLogger.ServiceTable rows).
Proof.
  apply (proj2 (evaluation_fails_as_a_whole
                  (fault_at_fifth_query OperationalError) 13500
                  empty_database)
           5%nat OperationalError).
  - simpl. lia.
  - reflexivity.
Defined.

(** * Further properties of the journal *)

(** ** The lookup *)

Lemma max_opt_iff (l : list Z) (x : Z) :
  max_opt l = Some x <-> In x l /\ forall y, In y l -> y <= x.
Proof.
  split; [apply max_opt_Some|].
  intros [Hin Hmax]. destruct (max_opt l) as [x'|] eqn:E.
  - apply max_opt_Some in E. destruct E as [Hin' Hmax'].
    specialize (Hmax x' Hin'). specialize (Hmax' x Hin). f_equal. lia.
  - apply max_opt_None in E. subst l. destruct Hin.
Qed.

(** X1: the lookup returns no row exactly when no stored record carries
    the description, and otherwise the mileage of a stored record with
    that description that no other such record exceeds. *)
Theorem GET_LAST_SERVICE_SQL_contract (d : string) (db : database) :
  (GET_LAST_SERVICE_SQL d db = None <->
   forall r, In r (logs db) -> Logs.description r <> d) /\
  (forall L,
      GET_LAST_SERVICE_SQL d db = Some L <->
      (exists r, In r (logs db) /\ Logs.description r = d /\
                 Logs.mileage r = L) /\
      (forall r, In r (logs db) -> Logs.description r = d ->
                 Logs.mileage r <= L)).
Proof.
  rewrite GET_LAST_SERVICE_SQL_max. split.
  - split.
    + intros E r Hin Hd. apply max_opt_None in E. apply map_eq_nil in E.
      assert (H : In r (where_description d (logs db)))
        by (apply where_description_In; auto).
      rewrite E in H. exact H.
    + intros Hnone.
      destruct (where_description d (logs db)) as [|r rows] eqn:E;
        [reflexivity|].
      assert (H : In r (where_description d (logs db)))
        by (rewrite E; now left).
      apply where_description_In in H. destruct H as [Hin Hd].
      exfalso. exact (Hnone r Hin Hd).
  - intros L. rewrite max_opt_iff. split.
    + intros [Hin Hmax]. apply in_map_iff in Hin.
      destruct Hin as (r & Hm & Hin). apply where_description_In in Hin.
      destruct Hin as [Hin Hd]. split; [now exists r|].
      intros r' Hin' Hd'. apply Hmax. apply in_map.
      apply where_description_In. auto.
    + intros [(r & Hin & Hd & Hm) Hmax]. split.
      * rewrite <- Hm. apply in_map. apply where_description_In. auto.
      * intros y Hy. apply in_map_iff in Hy. destruct Hy as (r' & <- & Hin').
        apply where_description_In in Hin'. destruct Hin' as [Hin' Hd'].
        now apply Hmax.
Qed.

Lemma max_opt_Permutation (l1 l2 : list Z) :
  Permutation l1 l2 -> max_opt l1 = max_opt l2.
Proof.
  induction 1 as [|x l l' _ IH|x y l|l l' l'' _ IH1 _ IH2]; simpl.
  - reflexivity.
  - now rewrite IH.
  - destruct (max_opt l); f_equal; lia.
  - congruence.
Qed.

Lemma where_description_Permutation (d : string) (l1 l2 : list Logs.row) :
  Permutation l1 l2 ->
  Permutation (where_description d l1) (where_description d l2).
Proof.
  unfold where_description.
  induction 1 as [|x l l' _ IH|x y l|l l' l'' _ IH1 _ IH2]; simpl.
  - constructor.
  - destruct (String.eqb _ _); [now constructor|exact IH].
  - destruct (String.eqb (Logs.description x) d),
             (String.eqb (Logs.description y) d);
      try apply Permutation_refl. constructor.
  - eapply Permutation_trans; eassumption.
Qed.

(** Two stores that answer the catalog's lookups alike are evaluated
    alike. *)
Lemma check_necessary_service_ext_lookup f m db1 db2 :
  (forall item, In item PLANNED_WORK_WITH_PERIOD ->
     GET_LAST_SERVICE_SQL (fst (snd item)) db1 =
     GET_LAST_SERVICE_SQL (fst (snd item)) db2) ->
  fst (CarLogger.check_necessary_service f m db1) =
  fst (CarLogger.check_necessary_service f m db2).
Proof.
  intros H.
  pose proof (check_items_ext f m PLANNED_WORK_WITH_PERIOD 1 [] db1 db2 H)
    as Hx.
  unfold CarLogger.check_necessary_service, with_connection,
    _get_connection, store_op, lift, ret.
  destruct (f 0%nat); [reflexivity|].
  destruct (CarLogger.check_items _ _ _ _ _ db1) as [o1 s1].
  destruct (CarLogger.check_items _ _ _ _ _ db2) as [o2 s2].
  cbn [fst] in Hx. subst o2. destruct o1; reflexivity.
Qed.

(** X2: the evaluation does not depend on the order in which the records
    were entered: two stores holding the same rows in different orders
    give the same outcome. *)
Theorem check_necessary_service_order_independent
  (f : fault_plan) (m : Z) (db1 db2 : database) :
  Permutation (logs db1) (logs db2) ->
  fst (CarLogger.check_necessary_service f m db1) =
  fst (CarLogger.check_necessary_service f m db2).
Proof.
  intros Hp. apply check_necessary_service_ext_lookup. intros item _.
  rewrite !GET_LAST_SERVICE_SQL_max. apply max_opt_Permutation.
  apply Permutation_map. now apply where_description_Permutation.
Qed.

Lemma check_necessary_service_order_independent_witness :
  fst (CarLogger.check_necessary_service no_fault 139999
         {| logs := [brake_discs_row; gearbox_repair_row];
            sqlite_sequence := 2 |}) =
  fst (CarLogger.check_necessary_service no_fault 139999
         {| logs := [gearbox_repair_row; brake_discs_row];
            sqlite_sequence := 2 |}).
Proof.
  apply (check_necessary_service_order_independent no_fault 139999).
  simpl. apply perm_swap.
Defined.

(** ** The returned mapping, exactly *)

Lemma dict_set_fresh {V : Type} (d : dict V) (k : string) (v : V) :
  ~ In k (dict_keys d) -> dict_set d k v = (d ++ [(k, v)])%list.
Proof.
  unfold dict_keys. induction d as [|[k0 v0] rest IH]; simpl; intros Hn.
  - reflexivity.
  - destruct (String.eqb_spec k0 k) as [->|Hne]; [tauto|].
    rewrite IH by tauto. reflexivity.
Qed.

Lemma scan_due_entries db m items : forall d,
  NoDup (descriptions items) ->
  (forall key, In key (descriptions items) -> ~ In key (dict_keys d)) ->
  Forall (fun item => admission_value (snd (snd item)) = snd (snd item) / 10)
         items ->
  scan db m items d = (d ++ due_entries db m items)%list.
Proof.
  induction items as [|[work_id [work_desc period]] rest IH];
    intros d Hnd Hfresh Hadm.
  - simpl. now rewrite app_nil_r.
  - simpl in Hnd. inversion Hnd as [|? ? Hnotin Hnd']; subst.
    inversion Hadm as [|? ? Ha Hadm']; subst. cbn [snd] in Ha.
    cbn [scan]. unfold due_entries. cbn [filter fst snd]. rewrite Ha.
    destruct (_ >=? _).
    + rewrite dict_set_fresh by (apply Hfresh; now left).
      rewrite IH; [|exact Hnd'| |exact Hadm'].
      * unfold due_entries. cbn [map fst snd]. now rewrite <- app_assoc.
      * intros key Hkey. unfold dict_keys. rewrite map_app, in_app_iff.
        cbn [map fst In]. intros [H|[H|[]]].
        -- apply (Hfresh key); [now right|exact H].
        -- subst key. exact (Hnotin Hkey).
    + apply IH; [exact Hnd'| |exact Hadm'].
      intros key Hkey. apply Hfresh. now right.
Qed.

Lemma catalog_admission_values :
  Forall (fun item => admission_value (snd (snd item)) = snd (snd item) / 10)
         PLANNED_WORK_WITH_PERIOD.
Proof.
  apply Forall_forall. intros [work_id [work_desc period]] Hin.
  exact (catalog_admission_value work_id work_desc period Hin).
Qed.

Lemma scan_catalog_due_entries db m :
  scan db m PLANNED_WORK_WITH_PERIOD [] =
  due_entries db m PLANNED_WORK_WITH_PERIOD.
Proof.
  rewrite scan_due_entries;
    [reflexivity|exact catalog_descriptions_NoDup|
     intros key _ []|exact catalog_admission_values].
Qed.

Lemma due_entries_keys db m items :
  dict_keys (due_entries db m items) =
  descriptions
    (filter (fun item =>
               m >=? last_mileage_of db (fst (snd item)) + snd (snd item)
                     - snd (snd item) / 10) items).
Proof.
  unfold dict_keys, due_entries, descriptions. rewrite map_map.
  reflexivity.
Qed.

Lemma NoDup_descriptions_filter (test : Z * (string * Z) -> bool) items :
  NoDup (descriptions items) -> NoDup (descriptions (filter test items)).
Proof.
  unfold descriptions. induction items as [|item rest IH]; simpl; intros Hnd;
    [constructor|].
  inversion Hnd as [|? ? Hnotin Hnd']; subst.
  destruct (test item); [|now apply IH].
  simpl. constructor; [|now apply IH].
  intros Hin. apply Hnotin. apply in_map_iff in Hin.
  destruct Hin as (it & Hit & Hin). apply filter_In in Hin.
  apply in_map_iff. exists it. tauto.
Qed.

(** X3: a returned mapping holds exactly the due tasks of the catalog, in
    catalog order and each once: one entry
    [(description, (last, last + period))] per task whose threshold
    [last + period - period / 10] the current mileage has reached. *)
Theorem check_necessary_service_exact
  (f : fault_plan) (m : Z) (db : database) (d : dict (Z * Z)) :
  fst (CarLogger.check_necessary_service f m db) = Return d ->
  d = due_entries db m PLANNED_WORK_WITH_PERIOD /\
  NoDup (dict_keys d) /\
  (List.length d <= List.length PLANNED_WORK_WITH_PERIOD)%nat.
Proof.
  intros Hd. apply check_necessary_service_return in Hd.
  destruct Hd as [_ ->]. rewrite scan_catalog_due_entries.
  split; [reflexivity|]. split.
  - rewrite due_entries_keys. apply NoDup_descriptions_filter.
    exact catalog_descriptions_NoDup.
  - unfold due_entries. rewrite length_map. apply filter_length_le.
Qed.

Lemma check_necessary_service_exact_witness :
  [("Замена масла в двигателе", (0, 15000));
   ("Замена масляного фильтра", (0, 15000))]
  = due_entries empty_database 13500 PLANNED_WORK_WITH_PERIOD /\
  NoDup (dict_keys [("Замена масла в двигателе", (0, 15000));
                    ("Замена масляного фильтра", (0, 15000))]) /\
  le (List.length [("Замена масла в двигателе", (0, 15000));
                   ("Замена масляного фильтра", (0, 15000))])
     (List.length PLANNED_WORK_WITH_PERIOD).
Proof.
  apply (check_necessary_service_exact no_fault 13500 empty_database).
  vm_compute. reflexivity.
Defined.

(** ** What the status screen shows *)

Lemma display_service_status_no_fault f m db :
  (forall j, (j <= List.length PLANNED_WORK_WITH_PERIOD)%nat -> f j = None) ->
  CarLogger.display_service_status f m db =
  (Return (match due_entries db m PLANNED_WORK_WITH_PERIOD with
           | [] => CarLogger.AllClearPanel
           | _ :: _ =>
               CarLogger.ServiceTable
                 (map (CarLogger.status_row m)
                      (due_entries db m PLANNED_WORK_WITH_PERIOD))
           end), db).
Proof.
  intros Hf. unfold CarLogger.display_service_status.
  rewrite (check_necessary_service_no_fault f m db Hf).
  rewrite scan_catalog_due_entries.
  destruct (due_entries db m PLANNED_WORK_WITH_PERIOD); reflexivity.
Qed.

(** X4: when the store answers, the status screen shows the "all systems
    normal" panel if and only if no task of the catalog has reached its
    threshold [last + period - period / 10]; otherwise it shows a table
    with one row per due task, in catalog order. *)
Theorem display_service_status_all_clear_iff
  (f : fault_plan) (m : Z) (db : database) :
  (forall j, (j <= List.length PLANNED_WORK_WITH_PERIOD)%nat -> f j = None) ->
  (fst (CarLogger.display_service_status f m db)
     = Return CarLogger.AllClearPanel <->
   forall work_id work_desc period,
     In (work_id, (work_desc, period)) PLANNED_WORK_WITH_PERIOD ->
     m < last_mileage_of db work_desc + period - period / 10) /\
  (fst (CarLogger.display_service_status f m db)
     <> Return CarLogger.AllClearPanel ->
   fst (CarLogger.display_service_status f m db) =
   Return (CarLogger.ServiceTable
             (map (CarLogger.status_row m)
                  (due_entries db m PLANNED_WORK_WITH_PERIOD)))).
Proof.
  intros Hf. rewrite (display_service_status_no_fault f m db Hf). cbn [fst].
  split.
  - split.
    + intros H work_id work_desc period Hin.
      destruct (due_entries db m PLANNED_WORK_WITH_PERIOD) as [|e es] eqn:E;
        [|discriminate].
      unfold due_entries in E. apply map_eq_nil in E.
      assert (Hnot : ~ In (work_id, (work_desc, period))
                       (filter (fun item =>
                                  m >=? last_mileage_of db (fst (snd item))
                                        + snd (snd item) - snd (snd item) / 10)
                               PLANNED_WORK_WITH_PERIOD))
        by (rewrite E; intros []).
      rewrite filter_In in Hnot. cbn [fst snd] in Hnot.
      destruct (Z.geb_spec m (last_mileage_of db work_desc + period
                              - period / 10)); [tauto|lia].
    + intros H.
      destruct (due_entries db m PLANNED_WORK_WITH_PERIOD) as [|e es] eqn:E;
        [reflexivity|].
      exfalso. unfold due_entries in E.
      destruct (filter _ PLANNED_WORK_WITH_PERIOD)
        as [|[work_id [work_desc period]] rest] eqn:Ef; [discriminate|].
      assert (Hin : In (work_id, (work_desc, period))
                      (filter (fun item =>
                                 m >=? last_mileage_of db (fst (snd item))
                                       + snd (snd item) - snd (snd item) / 10)
                              PLANNED_WORK_WITH_PERIOD))
        by (rewrite Ef; now left).
      apply filter_In in Hin. cbn [fst snd] in Hin. destruct Hin as [Hin Hge].
      specialize (H _ _ _ Hin).
      destruct (Z.geb_spec m (last_mileage_of db work_desc + period
                              - period / 10)); [lia|discriminate].
  - destruct (due_entries db m PLANNED_WORK_WITH_PERIOD);
      [intros H; exfalso; now apply H|reflexivity].
Qed.

Lemma display_service_status_all_clear_iff_witness :
  (fst (CarLogger.display_service_status no_fault 13499 empty_database)
     = Return CarLogger.AllClearPanel <->
   forall work_id work_desc period,
     In (work_id, (work_desc, period)) PLANNED_WORK_WITH_PERIOD ->
     13499 < last_mileage_of empty_database work_desc + period - period / 10)
  /\
  (fst (CarLogger.display_service_status no_fault 13499 empty_database)
     <> Return CarLogger.AllClearPanel ->
   fst (CarLogger.display_service_status no_fault 13499 empty_database) =
   Return (CarLogger.ServiceTable
             (map (CarLogger.status_row 13499)
                  (due_entries empty_database 13499
                     PLANNED_WORK_WITH_PERIOD)))).
Proof.
  apply (display_service_status_all_clear_iff no_fault 13499 empty_database).
  reflexivity.
Defined.

Lemma catalog_thresholds :
  Forall (fun item => 13500 <= snd (snd item) - snd (snd item) / 10)
         PLANNED_WORK_WITH_PERIOD.
Proof. repeat constructor; vm_compute; discriminate. Qed.

Lemma last_mileage_of_nonneg db d :
  Forall (fun r => 0 <= Logs.mileage r) (logs db) ->
  0 <= last_mileage_of db d.
Proof.
  intros Hnn. rewrite Forall_forall in Hnn.
  destruct (last_mileage_of_latest db d) as [(r & Hin & _ & <- & _)|[_ ->]];
    [now apply Hnn|lia].
Qed.

(** X5: as long as no stored mileage is negative, a vehicle that has run
    less than 13 500 km is never told to service anything: below the
    smallest threshold of the catalog the screen shows the "all systems
    normal" panel. *)
Theorem display_service_status_below_first_threshold
  (f : fault_plan) (m : Z) (db : database) :
  (forall j, (j <= List.length PLANNED_WORK_WITH_PERIOD)%nat -> f j = None) ->
  Forall (fun r => 0 <= Logs.mileage r) (logs db) ->
  m < 13500 ->
  fst (CarLogger.check_necessary_service f m db) = Return [] /\
  fst (CarLogger.display_service_status f m db)
    = Return CarLogger.AllClearPanel.
Proof.
  intros Hf Hnn Hm.
  assert (Hclear : fst (CarLogger.display_service_status f m db)
                   = Return CarLogger.AllClearPanel).
  { apply (display_service_status_all_clear_iff f m db Hf).
    intros work_id work_desc period Hin.
    pose proof catalog_thresholds as Ht. rewrite Forall_forall in Ht.
    specialize (Ht _ Hin). cbn [snd] in Ht.
    pose proof (last_mileage_of_nonneg db work_desc Hnn). lia. }
  split; [|exact Hclear].
  rewrite (display_service_status_no_fault f m db Hf) in Hclear.
  rewrite (check_necessary_service_no_fault f m db Hf),
    scan_catalog_due_entries.
  cbn [fst] in *.
  destruct (due_entries db m PLANNED_WORK_WITH_PERIOD);
    [reflexivity|discriminate].
Qed.

Lemma display_service_status_below_first_threshold_witness :
  fst (CarLogger.check_necessary_service no_fault 13499 sample_database)
    = Return [] /\
  fst (CarLogger.display_service_status no_fault 13499 sample_database)
    = Return CarLogger.AllClearPanel.
Proof.
  apply (display_service_status_below_first_threshold no_fault 13499
           sample_database).
  - reflexivity.
  - repeat constructor. simpl. lia.
  - lia.
Defined.

(** A returned mileage is bounded by any bound on the matching rows. *)
Lemma GET_LAST_SERVICE_SQL_max_row_le d db L bound :
  (forall row, In row (logs db) -> Logs.description row = d ->
               Logs.mileage row <= bound) ->
  GET_LAST_SERVICE_SQL d db = Some L -> L <= bound.
Proof.
  intros Hle E. rewrite GET_LAST_SERVICE_SQL_max in E.
  apply max_opt_Some in E. destruct E as [Hin _].
  apply in_map_iff in Hin. destruct Hin as (row & <- & Hin).
  apply where_description_In in Hin. destruct Hin as [Hin Hd].
  now apply Hle.
Qed.

(** ** Appending and then evaluating *)

(** The lookups after a successful append, description by description. *)
Lemma GET_LAST_after_create f r db rowid db' d :
  CarLogger.create_record f r db = (Return rowid, db') ->
  GET_LAST_SERVICE_SQL d db' =
  if String.eqb (service_description r) d
  then Some (match GET_LAST_SERVICE_SQL d db with
             | None => mileage r
             | Some L => Z.max L (mileage r)
             end)
  else GET_LAST_SERVICE_SQL d db.
Proof.
  intros Hc. apply create_record_return in Hc. destruct Hc as [-> ->].
  rewrite !GET_LAST_SERVICE_SQL_max. cbn [logs].
  unfold where_description. rewrite filter_app. cbn [filter Logs.description].
  destruct (String.eqb (service_description r) d).
  - rewrite map_app. cbn [map Logs.mileage]. apply max_opt_app.
  - now rewrite app_nil_r.
Qed.

Lemma last_mileage_after_create f r db rowid db' d :
  CarLogger.create_record f r db = (Return rowid, db') ->
  last_mileage_of db' d =
  if String.eqb (service_description r) d
  then match GET_LAST_SERVICE_SQL d db with
       | None => mileage r
       | Some L => Z.max L (mileage r)
       end
  else last_mileage_of db d.
Proof.
  intros Hc. unfold last_mileage_of.
  rewrite (GET_LAST_after_create f r db rowid db' d Hc).
  destruct (String.eqb (service_description r) d); reflexivity.
Qed.

Lemma catalog_periods_positive work_id work_desc period :
  In (work_id, (work_desc, period)) PLANNED_WORK_WITH_PERIOD ->
  13500 <= period - period / 10.
Proof.
  intros Hin. pose proof catalog_thresholds as Ht.
  rewrite Forall_forall in Ht. exact (Ht _ Hin).
Qed.

(** X6: recording a service resets its task.  After a successful append
    of a record that carries a catalog description, at a mileage no
    earlier record of that description exceeds, the task is included
    exactly from [mileage + period - period / 10] on; in particular it is
    not included at the mileage of the service itself. *)
Theorem create_record_resets_task
  (f f' : fault_plan) (r : LogRecord) (db db' : database) (rowid : Z)
  (work_id period m : Z) (d : dict (Z * Z)) :
  In (work_id, (service_description r, period)) PLANNED_WORK_WITH_PERIOD ->
  (forall row, In row (logs db) ->
               Logs.description row = service_description r ->
               Logs.mileage row <= mileage r) ->
  CarLogger.create_record f r db = (Return rowid, db') ->
  fst (CarLogger.check_necessary_service f' m db') = Return d ->
  (In (service_description r) (dict_keys d) <->
   m >= mileage r + period - period / 10) /\
  (m <= mileage r -> ~ In (service_description r) (dict_keys d)) /\
  (In (service_description r) (dict_keys d) ->
   dict_get d (service_description r)
   = Some (mileage r, mileage r + period)).
Proof.
  intros Hin Hle Hc Hd.
  apply check_necessary_service_return in Hd. destruct Hd as [_ ->].
  assert (HL : last_mileage_of db' (service_description r) = mileage r).
  { rewrite (last_mileage_after_create f r db rowid db' _ Hc).
    rewrite String.eqb_refl.
    destruct (GET_LAST_SERVICE_SQL (service_description r) db) as [L|] eqn:E;
      [|reflexivity].
    pose proof (GET_LAST_SERVICE_SQL_max_row_le _ _ _ _ Hle E). lia. }
  pose proof (catalog_periods_positive _ _ _ Hin) as Hp.
  rewrite dict_keys_get, (scan_catalog_get db' m _ _ _ Hin), HL.
  destruct (Z.geb_spec m (mileage r + period - period / 10)).
  - split; [split; [lia|now eexists]|]. split; [lia|reflexivity].
  - split; [split; [intros [v Hv]; discriminate|lia]|].
    split; [intros _ [v Hv]; discriminate|intros [v Hv]; discriminate].
Qed.

Lemma create_record_resets_task_witness :
  (In "Замена тормозных дисков"
      (dict_keys (due_entries
                    (snd (CarLogger.create_record no_fault brake_discs_record
                            sample_database))
                    60000 PLANNED_WORK_WITH_PERIOD)) <->
   60000 >= 60000 + 100000 - 100000 / 10) /\
  (60000 <= 60000 ->
   ~ In "Замена тормозных дисков"
       (dict_keys (due_entries
                     (snd (CarLogger.create_record no_fault brake_discs_record
                             sample_database))
                     60000 PLANNED_WORK_WITH_PERIOD))) /\
  (In "Замена тормозных дисков"
      (dict_keys (due_entries
                    (snd (CarLogger.create_record no_fault brake_discs_record
                            sample_database))
                    60000 PLANNED_WORK_WITH_PERIOD)) ->
   dict_get (due_entries
               (snd (CarLogger.create_record no_fault brake_discs_record
                       sample_database))
               60000 PLANNED_WORK_WITH_PERIOD)
            "Замена тормозных дисков"
   = Some (60000, 60000 + 100000)).
Proof.
  apply (create_record_resets_task no_fault no_fault brake_discs_record
           sample_database
           (snd (CarLogger.create_record no_fault brake_discs_record
                   sample_database)) 2 2 100000 60000).
  - simpl. tauto.
  - intros row [<-|[]] _. simpl. lia.
  - vm_compute. reflexivity.
  - vm_compute. reflexivity.
Defined.

(** X7: tasks do not interact.  A successful append changes nothing in
    the evaluation of the tasks whose description differs from the
    record's: their entries before and after are the same. *)
Theorem create_record_leaves_other_tasks
  (f f1 f2 : fault_plan) (r : LogRecord) (db db' : database) (rowid m : Z)
  (d d' : dict (Z * Z)) (key : string) :
  key <> service_description r ->
  CarLogger.create_record f r db = (Return rowid, db') ->
  fst (CarLogger.check_necessary_service f1 m db) = Return d ->
  fst (CarLogger.check_necessary_service f2 m db') = Return d' ->
  dict_get d' key = dict_get d key.
Proof.
  intros Hne Hc Hd Hd'.
  apply check_necessary_service_return in Hd, Hd'.
  destruct Hd as [_ ->], Hd' as [_ ->].
  destruct (in_dec string_dec key (descriptions PLANNED_WORK_WITH_PERIOD))
    as [Hin|Hn].
  - apply In_descriptions in Hin. destruct Hin as (work_id & period & Hin).
    rewrite !(scan_catalog_get _ m work_id key period Hin).
    rewrite (last_mileage_after_create f r db rowid db' key Hc).
    destruct (String.eqb_spec (service_description r) key);
      [congruence|reflexivity].
  - now rewrite !scan_get_other by exact Hn.
Qed.

Lemma create_record_leaves_other_tasks_witness :
  dict_get (due_entries
              (snd (CarLogger.create_record no_fault brake_discs_record
                      sample_database))
              60000 PLANNED_WORK_WITH_PERIOD)
           "Замена масла в двигателе" =
  dict_get (due_entries sample_database 60000 PLANNED_WORK_WITH_PERIOD)
           "Замена масла в двигателе".
Proof.
  apply (create_record_leaves_other_tasks no_fault no_fault no_fault
           brake_discs_record sample_database
           (snd (CarLogger.create_record no_fault brake_discs_record
                   sample_database)) 2 60000).
  - discriminate.
  - vm_compute. reflexivity.
  - vm_compute. reflexivity.
  - vm_compute. reflexivity.
Defined.

(** X8: recording a service never makes a task due.  After a successful
    append of a record with a non-negative mileage, every task included
    by the evaluation was already included before the append, at the same
    current mileage. *)
Theorem create_record_never_adds_due_task
  (f f1 f2 : fault_plan) (r : LogRecord) (db db' : database) (rowid m : Z)
  (d d' : dict (Z * Z)) :
  0 <= mileage r ->
  CarLogger.create_record f r db = (Return rowid, db') ->
  fst (CarLogger.check_necessary_service f1 m db) = Return d ->
  fst (CarLogger.check_necessary_service f2 m db') = Return d' ->
  incl (dict_keys d') (dict_keys d).
Proof.
  intros Hnn Hc Hd Hd'.
  apply check_necessary_service_return in Hd, Hd'.
  destruct Hd as [_ ->], Hd' as [_ ->].
  intros key Hk. apply dict_keys_get in Hk. destruct Hk as [entry Hk].
  apply dict_keys_get.
  destruct (scan_catalog_key _ _ _ _ Hk) as (work_id & period & Hin).
  rewrite (scan_catalog_get db' m work_id key period Hin) in Hk.
  rewrite (scan_catalog_get db m work_id key period Hin).
  assert (Hmono : last_mileage_of db key <= last_mileage_of db' key).
  { rewrite (last_mileage_after_create f r db rowid db' key Hc).
    unfold last_mileage_of.
    destruct (String.eqb (service_description r) key); [|lia].
    destruct (GET_LAST_SERVICE_SQL key db); lia. }
  destruct (Z.geb_spec m (last_mileage_of db' key + period - period / 10));
    [|discriminate].
  destruct (Z.geb_spec m (last_mileage_of db key + period - period / 10));
    [now eexists|lia].
Qed.

Lemma create_record_never_adds_due_task_witness :
  incl (dict_keys (due_entries
                     (snd (CarLogger.create_record no_fault brake_discs_record
                             sample_database))
                     145000 PLANNED_WORK_WITH_PERIOD))
       (dict_keys (due_entries sample_database 145000
                     PLANNED_WORK_WITH_PERIOD)).
Proof.
  apply (create_record_never_adds_due_task no_fault no_fault no_fault
           brake_discs_record sample_database
           (snd (CarLogger.create_record no_fault brake_discs_record
                   sample_database)) 2 145000).
  - simpl. lia.
  - vm_compute. reflexivity.
  - vm_compute. reflexivity.
  - vm_compute. reflexivity.
Defined.

(** ** Record identifiers *)

Lemma StronglySorted_app_last (l : list Z) (x : Z) :
  Sorted.StronglySorted Z.lt l -> Forall (fun i => i < x) l ->
  Sorted.StronglySorted Z.lt (l ++ [x]).
Proof.
  induction 1 as [|a l Hs IH Ha]; intros Hlt; simpl.
  - repeat constructor.
  - inversion Hlt as [|? ? Hax Hlx]; subst. constructor; [now apply IH|].
    apply Forall_app. split; [exact Ha|]. now constructor.
Qed.

(** X9: identifiers are unique and increase with insertion.  On a table
    whose ids increase and do not exceed the AUTOINCREMENT counter,
    [create_record] keeps it so whether it succeeds or raises, and the id
    it returns is greater than every id already in the table. *)
Theorem create_record_ids_in_sequence
  (f : fault_plan) (r : LogRecord) (db : database) :
  ids_in_sequence db ->
  ids_in_sequence (snd (CarLogger.create_record f r db)) /\
  forall rowid db',
    CarLogger.create_record f r db = (Return rowid, db') ->
    Forall (fun i => i < rowid) (map Logs.id (logs db)) /\
    map Logs.id (logs db') = (map Logs.id (logs db) ++ [rowid])%list.
Proof.
  intros [Hsorted Hbound].
  assert (Hlt : Forall (fun i => i < sqlite_sequence db + 1)
                       (map Logs.id (logs db))).
  { eapply Forall_impl; [|exact Hbound]. cbn beta. intros i Hi. lia. }
  split.
  - destruct (CarLogger.create_record f r db) as [[rowid|e] db'] eqn:E.
    + apply create_record_return in E. destruct E as [-> ->].
      cbn [snd]. unfold ids_in_sequence. cbn [logs sqlite_sequence].
      rewrite map_app. cbn [map Logs.id]. split.
      * now apply StronglySorted_app_last.
      * apply Forall_app. split.
        -- eapply Forall_impl; [|exact Hbound]. cbn beta. intros i Hi. lia.
        -- repeat constructor. lia.
    + pose proof (create_record_raise f r db e) as Hr.
      rewrite E in Hr. cbn [fst snd] in *. rewrite (Hr eq_refl).
      split; assumption.
  - intros rowid db' E. apply create_record_return in E.
    destruct E as [-> ->]. split; [exact Hlt|].
    cbn [logs]. rewrite map_app. reflexivity.
Qed.

Lemma create_record_ids_in_sequence_witness :
  ids_in_sequence
    (snd (CarLogger.create_record no_fault late_record sample_database)) /\
  forall rowid db',
    CarLogger.create_record no_fault late_record sample_database
      = (Return rowid, db') ->
    Forall (fun i => i < rowid) (map Logs.id (logs sample_database)) /\
    map Logs.id (logs db')
      = (map Logs.id (logs sample_database) ++ [rowid])%list.
Proof.
  apply (create_record_ids_in_sequence no_fault late_record sample_database).
  split; simpl; repeat constructor. lia.
Defined.

(** X10: a mileage that does not fit SQLite's signed 64-bit integers is
    the one input [create_record] refuses on a reachable store: it raises
    [OverflowError] and stores nothing. *)
Theorem create_record_overflow (r : LogRecord) (db : database) :
  mileage r < - 2 ^ 63 \/ 2 ^ 63 <= mileage r ->
  CarLogger.create_record no_fault r db = (Raise OverflowError, db).
Proof.
  intros Hr. rewrite create_record_cases. unfold no_fault, bind_int.
  destruct (Z.leb_spec (- 2 ^ 63) (mileage r));
    destruct (Z.ltb_spec (mileage r) (2 ^ 63)); cbn [andb];
    try reflexivity; lia.
Qed.

Lemma create_record_overflow_witness :
  CarLogger.create_record no_fault
    {| mileage := 2 ^ 63;
       service_date := {| year := 2024; month := 8; day := 1 |};
       type_ := "плановое ТО";
       service_description := "Замена масла в АКПП" |}
    sample_database
  = (Raise OverflowError, sample_database).
Proof.
  apply (create_record_overflow
           {| mileage := 2 ^ 63;
              service_date := {| year := 2024; month := 8; day := 1 |};
              type_ := "плановое ТО";
              service_description := "Замена масла в АКПП" |}
           sample_database).
  right. simpl. lia.
Defined.

(** ** Number cells *)

Lemma group3_without_spaces (l : list ascii) :
  filter (fun c => negb (Ascii.eqb c " "%char)) (CarLogger.group3 l) =
  filter (fun c => negb (Ascii.eqb c " "%char)) l.
Proof.
  remember (List.length l) as n eqn:Hn. revert l Hn.
  induction n as [n IH] using lt_wf_ind. intros l Hn.
  destruct l as [|a [|b [|c rest]]]; try reflexivity.
  cbn [CarLogger.group3]. destruct rest as [|x rest']; [reflexivity|].
  cbn [filter]. change (Ascii.eqb " " " ") with true. cbn [negb].
  rewrite (IH (List.length (x :: rest'))); [reflexivity| |reflexivity].
  subst n. cbn [List.length]. lia.
Qed.

Lemma digits_without_spaces (u : Decimal.uint) :
  filter (fun c => negb (Ascii.eqb c " "%char))
         (list_ascii_of_string (DecimalString.NilEmpty.string_of_uint u)) =
  list_ascii_of_string (DecimalString.NilEmpty.string_of_uint u).
Proof.
  induction u; cbn [DecimalString.NilEmpty.string_of_uint
                      list_ascii_of_string filter];
    try reflexivity;
    match goal with
    | |- context [Ascii.eqb ?c " "] =>
        change (Ascii.eqb c " ") with false
    end; cbn [negb]; now rewrite IHu.
Qed.

Lemma digits_without_spaces_zero (u : Decimal.uint) :
  filter (fun c => negb (Ascii.eqb c " "%char))
         (list_ascii_of_string (DecimalString.NilZero.string_of_uint u)) =
  list_ascii_of_string (DecimalString.NilZero.string_of_uint u).
Proof.
  destruct u; try apply digits_without_spaces. reflexivity.
Qed.

(** X11: the thousands separators of a number cell are only inserted
    blanks: taking the blanks out of [format_thousands n] gives back the
    plain decimal text [str(n)], sign included, for every integer. *)
Theorem format_thousands_without_spaces (n : Z) :
  without_spaces (CarLogger.format_thousands n) = py_str n.
Proof.
  unfold without_spaces, CarLogger.format_thousands, py_str.
  set (u := N.to_uint (Z.abs_N n)).
  assert (H : filter (fun c => negb (Ascii.eqb c " "%char))
                (rev (CarLogger.group3
                        (rev (list_ascii_of_string
                                (DecimalString.NilZero.string_of_uint u))))) =
              list_ascii_of_string (DecimalString.NilZero.string_of_uint u)).
  { rewrite filter_rev, group3_without_spaces, <- filter_rev, rev_involutive.
    apply digits_without_spaces_zero. }
  destruct (n <? 0).
  - cbn [list_ascii_of_string filter].
    change (Ascii.eqb "-" " ") with false. cbn [negb].
    rewrite list_ascii_of_string_of_list_ascii, H.
    cbn [string_of_list_ascii]. now rewrite string_of_list_ascii_of_string.
  - rewrite list_ascii_of_string_of_list_ascii, H.
    apply string_of_list_ascii_of_string.
Qed.

(** ** Records entered from the menu *)

Lemma lookup_In {V : Type} (table : list (Z * V)) (key : Z) (v : V) :
  lookup table key = Some v -> In (key, v) table.
Proof.
  induction table as [|[k0 v0] rest IH]; simpl; [discriminate|].
  destruct (Z.eqb_spec k0 key) as [->|Hne].
  - intros [= ->]. now left.
  - intros H. right. now apply IH.
Qed.

(** X12: a scheduled service entered from the menu always registers with
    its task.  For service type 0 and a work code of the catalog, the
    record handed to [create_record] carries the typed mileage, today's
    date, the scheduled-maintenance label and the catalog's own
    description; once appended, the lookup of that task returns a mileage
    at least the typed one. *)
Theorem menu_scheduled_record_registers
  (today : py_date) (a : answers) (work : string) (period : Z) :
  answer_service_type a = 0 ->
  lookup PLANNED_WORK_WITH_PERIOD (answer_work_type a) = Some (work, period) ->
  exists r,
    menu_new_record today a = Some r /\
    mileage r = answer_mileage a /\
    service_date r = today /\
    type_ r = "плановое ТО" /\
    service_description r = work /\
    In (answer_work_type a, (work, period)) PLANNED_WORK_WITH_PERIOD /\
    forall f db rowid db',
      CarLogger.create_record f r db = (Return rowid, db') ->
      exists L, GET_LAST_SERVICE_SQL work db' = Some L /\
                answer_mileage a <= L.
Proof.
  intros Ht Hw. unfold menu_new_record. rewrite Ht, Hw.
  change (lookup SERVICE_TYPE 0) with (Some "плановое ТО").
  change (0 =? 0) with true. cbv iota beta.
  eexists. split; [reflexivity|].
  cbn [mileage service_date type_ service_description].
  do 4 (split; [reflexivity|]). split; [now apply lookup_In|].
  intros f db rowid db' Hc.
  rewrite (GET_LAST_after_create f _ db rowid db' work Hc).
  cbn [service_description mileage]. rewrite String.eqb_refl.
  eexists. split; [reflexivity|].
  destruct (GET_LAST_SERVICE_SQL work db); lia.
Qed.

Lemma menu_scheduled_record_registers_witness :
  exists r,
    menu_new_record {| year := 2024; month := 8; day := 1 |}
      {| answer_mileage := 60000; answer_service_type := 0;
         answer_work_type := 2; answer_description := "" |} = Some r /\
    mileage r = 60000 /\
    service_date r = {| year := 2024; month := 8; day := 1 |} /\
    type_ r = "плановое ТО" /\
    service_description r = "Замена тормозных дисков" /\
    In (2, ("Замена тормозных дисков", 100000)) PLANNED_WORK_WITH_PERIOD /\
    forall f db rowid db',
      CarLogger.create_record f r db = (Return rowid, db') ->
      exists L, GET_LAST_SERVICE_SQL "Замена тормозных дисков" db' = Some L /\
                60000 <= L.
Proof.
  apply (menu_scheduled_record_registers
           {| year := 2024; month := 8; day := 1 |}
           {| answer_mileage := 60000; answer_service_type := 0;
              answer_work_type := 2; answer_description := "" |}
           "Замена тормозных дисков" 100000).
  - reflexivity.
  - reflexivity.
Defined.




(** ** The history screen *)

Section HistoryFacts.

Variable fromisoformat : string -> option py_date.
Variable strftime_dmY : py_date -> string.

Lemma show_service_history_cases (f : fault_plan) (db : database) :
  show_service_history fromisoformat strftime_dmY f db =
  match f 0%nat, f 1%nat with
  | Some e, _ => (Raise e, db)
  | None, Some e => (Raise e, db)
  | None, None =>
      (Return (match logs db with
               | [] => HistoryEmpty
               | _ :: _ =>
                   HistoryTable
                     (map (history_line fromisoformat strftime_dmY) (logs db))
               end), db)
  end.
Proof.
  unfold show_service_history, with_connection, _get_connection, store_op,
    bind, lift, ret, GET_ALL_RECORDS_SQL.
  destruct (f 0%nat); [reflexivity|].
  destruct (f 1%nat); [reflexivity|].
  destruct (logs db); reflexivity.
Qed.

End HistoryFacts.



(** X15: the history screen only reads, and it does not handle store
    failures: when the connection or the query fails, the exception
    leaves [show_service_history] (nothing is printed), and in every case
    the database is left as it was. *)
Theorem show_service_history_failure
  (fromisoformat : string -> option py_date)
  (strftime_dmY : py_date -> string)
  (f : fault_plan) (db : database) :
  snd (show_service_history fromisoformat strftime_dmY f db) = db /\
  (forall e, f 0%nat = Some e ->
     fst (show_service_history fromisoformat strftime_dmY f db) = Raise e) /\
  (forall e, f 0%nat = None -> f 1%nat = Some e ->
     fst (show_service_history fromisoformat strftime_dmY f db) = Raise e) /\
  (forall out,
     fst (show_service_history fromisoformat strftime_dmY f db) = Return out ->
     f 0%nat = None /\ f 1%nat = None /\
     (out = HistoryEmpty <-> logs db = [])).
Proof.
  rewrite show_service_history_cases.
  destruct (f 0%nat) as [e0|]; [|destruct (f 1%nat) as [e1|]]; cbn [fst snd].
  - repeat split; try congruence; try discriminate.
  - repeat split; try congruence; try discriminate.
  - split; [reflexivity|]. split; [discriminate|]. split; [discriminate|].
    intros out [= <-]. split; [reflexivity|]. split; [reflexivity|].
    destruct (logs db); split; intros; congruence.
Qed.
